(** * Data365_analyze: the journey cleaning pipeline of [clean/clean_data.py]

    A shallow embedding of the two transformations of the script,
    [remove_page_duplicates] (the sequence deduplicator) and [group_by]
    (the session grouper), with the pandas and Python primitives they call,
    followed by the properties the specification states about them. *)

From Stdlib Require Import ZArith String Ascii List Sorting.Sorted Permutation Lia.
From stdpp Require Import base decidable option list gmap strings pretty sorting.

Local Open Scope string_scope.
Local Open Scope Z_scope.
Local Open Scope list_scope.

(** ** Python values and exceptions *)

(** A cell of a table (of an object column): a Python [int], a [str], or the
    missing marker [NaN] that pandas puts where a CSV field is empty.
    Strings are byte strings (the UTF-8 encoding of the Python string). *)
Inductive Value : Type :=
  | VInt (z : Z)
  | VStr (s : string)
  | VNaN.

#[global] Instance Value_eq_dec : EqDecision Value.
Proof. solve_decision. Defined.

#[global] Instance Value_inhabited : Inhabited Value := populate VNaN.

(** [isinstance(v, str)] *)
Definition isinstance_str (v : Value) : bool :=
  match v with VStr _ => true | _ => false end.

(** The exceptions the two functions can end with.  [ValueError] carries its
    message; the two messages of [group_by] are the specification's
    [InvalidParameter] condition.  [Dangling] is not a Python exception: it
    is the answer of the model to a reference outside the heap, which no
    Python program can build. *)
Inductive exn : Type :=
  | ValueError (msg : string)
  | TypeError
  | KeyError (key : string)
  | Dangling.

Inductive result (A : Type) : Type :=
  | Ok (a : A)
  | Raise (e : exn).
Arguments Ok {A} a.
Arguments Raise {A} e.

#[global] Instance result_ret : MRet result := fun A a => Ok a.
#[global] Instance result_bind : MBind result := fun A B k m =>
  match m with
  | Ok a => k a
  | Raise e => Raise e
  end.
#[global] Instance result_fmap : FMap result := fun A B f m =>
  match m with
  | Ok a => Ok (f a)
  | Raise e => Raise e
  end.

Definition is_Ok {A : Type} (m : result A) : Prop :=
  match m with Ok _ => True | Raise _ => False end.

(** The [InvalidParameter] condition: a [ValueError]. *)
Definition InvalidParameter {A : Type} (m : result A) : Prop :=
  match m with Raise (ValueError _) => True | _ => False end.

(** ** Python string primitives *)

Definition hyphen : ascii := "-"%char.
Definition sep : string := String hyphen EmptyString.

(** [s.split(c)] for a one-character separator: the maximal pieces of [s]
    between occurrences of [c].  The result is never empty: the empty
    string splits into one empty token. *)
Fixpoint str_split (c : ascii) (s : string) : list string :=
  match s with
  | EmptyString => [EmptyString]
  | String a s' =>
      if Ascii.eqb a c then EmptyString :: str_split c s'
      else match str_split c s' with
           | [] => [String a EmptyString]
           | t :: ts => String a t :: ts
           end
  end.

(** [d.join(l)] on a list of strings is [String.concat d l]. *)
Definition str_join (d : string) (l : list string) : string := String.concat d l.

(** [d.join(l)] on a list of cells: a [TypeError] at the first cell that is
    not a string. *)
Fixpoint as_strs (l : list Value) : result (list string) :=
  match l with
  | [] => Ok []
  | VStr s :: l' => ss ← as_strs l'; Ok (s :: ss)
  | _ :: _ => Raise TypeError
  end.

Definition join_values (d : string) (l : list Value) : result string :=
  ss ← as_strs l; Ok (str_join d ss).

(** [l[-1]] on a list of strings that is not empty. *)
Definition py_last (l : list string) : string := List.last l EmptyString.

(** ** The sequence deduplicator *)

(** The inner function [remove_duplicates] of [remove_page_duplicates]. *)
Definition remove_duplicates (journey : Value) : Value :=
  match journey with
  | VStr s =>
      let pages := str_split hyphen s in
      match pages with
      | [] => journey
      | page0 :: rest =>
          let cleaned_pages :=
            fold_left
              (fun cleaned_pages page =>
                 if bool_decide (page <> py_last cleaned_pages)
                 then cleaned_pages ++ [page]
                 else cleaned_pages)
              rest [page0] in
          VStr (str_join sep cleaned_pages)
      end
  | _ => journey
  end.

(** ** Tables *)

(** A pandas [DataFrame]: the column labels in order, and the rows, each a
    dictionary from column label to cell, in index order.  A cell a row has
    no entry for reads as [NaN], as in [pd.DataFrame(list_of_dicts)]. *)
Abbreviation Row := (gmap string Value).

Record DataFrame : Type := mkDataFrame {
  columns : list string;
  rows : list Row
}.

Definition cell (c : string) (r : Row) : Value := default VNaN (r !! c).

(** [df[c]]: the column as a list of cells, [KeyError] without it. *)
Definition getitem (df : DataFrame) (c : string) : result (list Value) :=
  if decide (c ∈ columns df) then Ok (cell c <$> rows df)
  else Raise (KeyError c).

(** [df[c] = series] for a series on the index of [df]: the column is
    replaced in every row, and added last when [df] did not have it. *)
Definition setitem (df : DataFrame) (c : string) (series : list Value) : DataFrame :=
  {| columns := if decide (c ∈ columns df) then columns df else columns df ++ [c];
     rows := zip_with (fun r v => <[c := v]> r) (rows df) series |}.

(** [series.apply(f)] *)
Definition apply (f : Value -> Value) (series : list Value) : list Value :=
  f <$> series.

(** The tables of a run live in a heap of objects, named by references:
    [df.copy()] allocates, [df[c] = series] updates in place. *)
Abbreviation ref := nat (only parsing).
Abbreviation heap := (gmap nat DataFrame).

Definition df_copy (h : heap) (df : ref) : result (heap * ref) :=
  match h !! df with
  | Some d => let l := fresh (dom h) in Ok (<[l := d]> h, l)
  | None => Raise Dangling
  end.

Definition heap_getitem (h : heap) (df : ref) (c : string) : result (list Value) :=
  match h !! df with
  | Some d => getitem d c
  | None => Raise Dangling
  end.

Definition heap_setitem (h : heap) (df : ref) (c : string) (series : list Value)
  : result heap :=
  match h !! df with
  | Some d => Ok (<[df := setitem d c series]> h)
  | None => Raise Dangling
  end.

(** [remove_page_duplicates(df, target_column)]: the heap after the call and
    the reference it returns. *)
Definition remove_page_duplicates (h : heap) (df : ref) (target_column : string)
  : result (heap * ref) :=
  '(h, df_clean) ← df_copy h df;
  series ← heap_getitem h df_clean target_column;
  h ← heap_setitem h df_clean target_column (apply remove_duplicates series);
  Ok (h, df_clean).

(** The table a call leaves at the reference it returns. *)
Definition returned (m : result (heap * ref)) : result DataFrame :=
  '(h, l) ← m;
  match h !! l with
  | Some d => Ok d
  | None => Raise Dangling
  end.

(** ** pandas primitives of the grouper *)

(** The order [sort_values] puts the cells of a key column in: integers by
    value, strings by code point, and missing cells last
    ([na_position='last']); in a column that mixes integers and strings the
    integers come first. *)
Definition value_leb (a b : Value) : bool :=
  match a, b with
  | VInt x, VInt y => (x <=? y)%Z
  | VInt _, _ => true
  | VStr _, VInt _ => false
  | VStr s, VStr t => String.leb s t
  | VStr _, VNaN => true
  | VNaN, VNaN => true
  | VNaN, _ => false
  end.

(** Rows compared on the columns [by], the first column that differs
    deciding. *)
Fixpoint rows_leb (by_ : list string) (r1 r2 : Row) : bool :=
  match by_ with
  | [] => true
  | c :: by' =>
      if decide (cell c r1 = cell c r2) then rows_leb by' r1 r2
      else value_leb (cell c r1) (cell c r2)
  end.

Fixpoint insert_row (by_ : list string) (r : Row) (l : list Row) : list Row :=
  match l with
  | [] => [r]
  | r' :: l' =>
      if rows_leb by_ r r' then r :: r' :: l'
      else r' :: insert_row by_ r l'
  end.

(** The sort of [sort_values] on several columns (a lexsort): stable, each
    row going before the rows after it that it does not exceed. *)
Definition sort_rows (by_ : list string) (l : list Row) : list Row :=
  foldr (insert_row by_) [] l.

Fixpoint check_columns (cols : list string) (by_ : list string) : result unit :=
  match by_ with
  | [] => Ok tt
  | c :: by' =>
      if decide (c ∈ cols) then check_columns cols by' else Raise (KeyError c)
  end.

(** [data.sort_values(by=by_)] *)
Definition sort_values (data : DataFrame) (by_ : list string) : result DataFrame :=
  _ ← check_columns (columns data) by_;
  Ok {| columns := columns data; rows := sort_rows by_ (rows data) |}.

(** [pd.unique] / [Series.unique]: the distinct elements in order of first
    appearance, each found by a look-up among those seen so far. *)
Fixpoint unique_from {A : Type} `{EqDecision A} (seen l : list A) : list A :=
  match l with
  | [] => []
  | x :: l' =>
      if decide (x ∈ seen) then unique_from seen l'
      else x :: unique_from (x :: seen) l'
  end.

Definition unique {A : Type} `{EqDecision A} (l : list A) : list A :=
  unique_from [] l.

Definition notna (v : Value) : bool :=
  match v with VNaN => false | _ => true end.

(** [data.groupby(c, sort=False)], iterated: one pair (key, sub-table) per
    distinct key in order of first appearance, the rows of a group in table
    order.  Rows whose key is missing belong to no group ([dropna=True] is
    the default). *)
Definition groupby (data : DataFrame) (c : string)
  : result (list (Value * DataFrame)) :=
  if decide (c ∈ columns data) then
    let keys := unique (filter (fun v => notna v = true) (cell c <$> rows data)) in
    Ok ((fun k => (k, {| columns := columns data;
                         rows := filter (fun r => cell c r = k) (rows data) |}))
          <$> keys)
  else Raise (KeyError c).

(** Positional slicing [l[start:stop]] with Python's treatment of negative
    and out-of-range bounds. *)
Definition slice_bound (len i : Z) : Z :=
  if (i <? 0)%Z then Z.max (i + len) 0 else Z.min i len.

Definition iloc {A : Type} (start stop : option Z) (l : list A) : list A :=
  let len := Z.of_nat (length l) in
  let a := match start with Some i => slice_bound len i | None => 0 end in
  let b := match stop with Some j => slice_bound len j | None => len end in
  take (Z.to_nat (b - a)) (drop (Z.to_nat a) l).

(** [df.head(n)] is [df.iloc[:n]]; [df.tail(n)] is [df.iloc[0:0]] when [n]
    is 0 and [df.iloc[-n:]] otherwise. *)
Definition head (n : Z) (df : DataFrame) : DataFrame :=
  {| columns := columns df; rows := iloc None (Some n) (rows df) |}.

Definition tail (n : Z) (df : DataFrame) : DataFrame :=
  {| columns := columns df;
     rows := if (n =? 0)%Z then iloc (Some 0) (Some 0) (rows df)
             else iloc (Some (- n)) None (rows df) |}.

(** [series.astype(str)] on an object column *)
Definition str_of_value (v : Value) : string :=
  match v with
  | VInt z => pretty z
  | VStr s => s
  | VNaN => "nan"
  end.

Definition astype_str (series : list Value) : list string :=
  str_of_value <$> series.

(** ** Python primitives of the parameter handling *)

(** The [sessions] argument: a string or an integer. *)
Inductive PyArg : Type :=
  | ArgStr (s : string)
  | ArgInt (z : Z).

#[global] Instance PyArg_eq_dec : EqDecision PyArg.
Proof. solve_decision. Defined.

Definition between (lo hi : nat) (c : ascii) : bool :=
  let n := nat_of_ascii c in (lo <=? n)%nat && (n <=? hi)%nat.

(** [str.lower] on ASCII letters; the other bytes stay.  No character
    outside ASCII has a lower case that occurs in "first" or "last", so the
    two comparisons of [group_by] come out as in Python. *)
Definition lower_ascii (c : ascii) : ascii :=
  if between 65 90 c then ascii_of_nat (nat_of_ascii c + 32) else c.

Fixpoint lower (s : string) : string :=
  match s with
  | EmptyString => EmptyString
  | String c s' => String (lower_ascii c) (lower s')
  end.

(** The white space [int] strips from an ASCII string: tab, line feed,
    vertical tab, form feed, carriage return and space. *)
Definition is_space (c : ascii) : bool :=
  between 9 13 c || between 32 32 c.

Fixpoint lstrip (s : string) : string :=
  match s with
  | EmptyString => EmptyString
  | String c s' => if is_space c then lstrip s' else s
  end.

Definition strip (s : string) : string :=
  String.rev (lstrip (String.rev (lstrip s))).

(** The digits of a decimal literal, single underscores allowed between
    digits: [acc] is the value so far, [after_digit] tells that the last
    character was a digit. *)
Fixpoint int_digits (acc : Z) (after_digit : bool) (s : string) : option Z :=
  match s with
  | EmptyString => if after_digit then Some acc else None
  | String c s' =>
      if between 48 57 c
      then int_digits (10 * acc + Z.of_nat (nat_of_ascii c - 48)) true s'
      else if Ascii.eqb c "_" && after_digit then int_digits acc false s'
      else None
  end.

(** [int(s)] on an ASCII string: white space stripped, an optional sign,
    then the digits.  [None] is the [ValueError] of a string that is not a
    decimal literal.  Digits and white space outside ASCII, which [int]
    accepts, and the bound of 4300 digits recent interpreters put on a
    literal are left out: [int_domain] below delimits the arguments on
    which this is [int]. *)
Definition int_of_string (s : string) : option Z :=
  match strip s with
  | String "-" d => Z.opp <$> int_digits 0 false d
  | String "+" d => int_digits 0 false d
  | d => int_digits 0 false d
  end.

(** [int(x)] *)
Definition py_int (x : PyArg) : option Z :=
  match x with
  | ArgStr s => int_of_string s
  | ArgInt z => Some z
  end.

(** Every byte of [s] is an ASCII character. *)
Fixpoint is_ascii (s : string) : bool :=
  match s with
  | EmptyString => true
  | String c s' => between 0 127 c && is_ascii s'
  end.

(** The arguments on which [py_int] is [int], with its [ValueError] as
    [None]: the integers, and the ASCII strings of at most 4300 characters
    (so that no literal goes over the bound on the number of digits). *)
Definition int_domain (x : PyArg) : Prop :=
  match x with
  | ArgStr s => is_ascii s = true /\ (Z.of_nat (String.length s) <= 4300)%Z
  | ArgInt _ => True
  end.

(** ** The session grouper *)

(** The window of a group: the branch on [sessions] and [count_from] at the
    head of the loop body of [group_by]. *)
Definition select_subset (sessions : PyArg) (count_from : string)
    (group_df : DataFrame) : result DataFrame :=
  if decide (sessions = ArgStr "All") then Ok group_df
  else
    match py_int sessions with
    | None => Raise (ValueError "The sessions parameter must be an integer or 'All'.")
    | Some session_count =>
        if decide (lower count_from = "first") then Ok (head session_count group_df)
        else if decide (lower count_from = "last") then Ok (tail session_count group_df)
        else Raise (ValueError "count_from must be either 'first' or 'last'.")
    end.

(** The fold of a window into one record: the three joins and the dictionary
    of the loop body. *)
Definition fold_subset (group_column target_column session_id subscription_type : string)
    (group_name : Value) (subset : DataFrame) : result Row :=
  journeys ← getitem subset target_column;
  grouped_journey ← join_values sep journeys;
  sessions ← getitem subset session_id;
  let grouped_sessions := str_join sep (astype_str sessions) in
  subscriptions ← getitem subset subscription_type;
  let grouped_subscription := str_join sep (unique (astype_str subscriptions)) in
  Ok (<[target_column := VStr grouped_journey]>
        (<[subscription_type := VStr grouped_subscription]>
           (<[session_id := VStr grouped_sessions]>
              (<[group_column := group_name]> ∅)))).

(** One turn of the loop of [group_by]. *)
Definition group_record (group_column target_column session_id subscription_type : string)
    (sessions : PyArg) (count_from : string)
    (group_name : Value) (group_df : DataFrame) : result Row :=
  subset ← select_subset sessions count_from group_df;
  fold_subset group_column target_column session_id subscription_type group_name subset.

(** [for group_name, group_df in grouped: ... grouped_records.append(...)] *)
Fixpoint for_groups (body : Value -> DataFrame -> result Row)
    (grouped : list (Value * DataFrame)) (grouped_records : list Row)
  : result (list Row) :=
  match grouped with
  | [] => Ok grouped_records
  | (group_name, group_df) :: grouped' =>
      record ← body group_name group_df;
      for_groups body grouped' (grouped_records ++ [record])
  end.

(** [pd.DataFrame(records)] for dictionaries that all have the keys [keys],
    listed in insertion order: no record, no column. *)
Definition pd_DataFrame (keys : list string) (records : list Row) : DataFrame :=
  {| columns := match records with [] => [] | _ :: _ => unique keys end;
     rows := records |}.

(** [group_by] updates no table ([sort_values], [head] and [tail] return new
    ones), so it is a function of the table its argument refers to. *)
Definition group_by (data : DataFrame)
    (group_column target_column session_id subscription_type : string)
    (sessions : PyArg) (count_from : string) : result DataFrame :=
  data ← sort_values data [group_column; session_id];
  grouped ← groupby data group_column;
  grouped_records ←
    for_groups
      (group_record group_column target_column session_id subscription_type
         sessions count_from)
      grouped [];
  Ok (pd_DataFrame [group_column; session_id; subscription_type; target_column]
        grouped_records).

(** The call with the default column names of the script. *)
Definition group_by_default (data : DataFrame) (sessions : PyArg) (count_from : string)
  : result DataFrame :=
  group_by data "user_id" "user_journey" "session_id" "subscription_type"
    sessions count_from.

(** ** Vocabulary of the specification *)

(** The per-value algorithm of the deduplicator in the specification's
    words: scan the tokens left to right and keep a token only if it differs
    from the last kept one; the first token is always kept. *)
Fixpoint keep_changes (last_kept : string) (tokens : list string) : list string :=
  match tokens with
  | [] => []
  | t :: ts =>
      if decide (t = last_kept) then keep_changes last_kept ts
      else t :: keep_changes t ts
  end.

Definition spec_remove_duplicates (s : string) : string :=
  match str_split hyphen s with
  | [] => s
  | first :: others => str_join sep (first :: keep_changes first others)
  end.

(** [c] occurs in [s]. *)
Fixpoint has_char (c : ascii) (s : string) : bool :=
  match s with
  | EmptyString => false
  | String a s' => Ascii.eqb a c || has_char c s'
  end.

(** The deduplicator applied to the table it has just returned. *)
Definition remove_page_duplicates_twice (h : heap) (df : ref) (target_column : string)
  : result (heap * ref) :=
  '(h1, df1) ← remove_page_duplicates h df target_column;
  remove_page_duplicates h1 df1 target_column.

(** Ascending order of key cells, and agreement of two rows on the sort
    columns. *)
Definition value_le (a b : Value) : Prop := value_leb a b = true.
Definition value_lt (a b : Value) : Prop := value_le a b /\ a <> b.

Definition same_keys (by_ : list string) (r1 r2 : Row) : Prop :=
  Forall (fun c => cell c r1 = cell c r2) by_.

#[global] Instance same_keys_dec by_ r1 r2 : Decision (same_keys by_ r1 r2).
Proof. unfold same_keys. apply _. Defined.

(** (grouping key ascending, session id ascending) *)
Definition key_session_le (group_column session_id : string) (r1 r2 : Row) : Prop :=
  value_lt (cell group_column r1) (cell group_column r2) \/
  (cell group_column r1 = cell group_column r2 /\
   value_le (cell session_id r1) (cell session_id r2)).

(** The position of the first occurrence of [x] in [l] (the length of [l]
    when there is none). *)
Fixpoint first_index {A : Type} `{EqDecision A} (x : A) (l : list A) : nat :=
  match l with
  | [] => 0%nat
  | y :: l' => if decide (x = y) then 0%nat else S (first_index x l')
  end.

(** The parameters the grouper is documented to reject: [sessions] is
    neither 'All' nor convertible by [int], or it is a count and
    [count_from] is, in lower case, neither 'first' nor 'last'. *)
Definition invalid_parameters (sessions : PyArg) (count_from : string) : Prop :=
  sessions <> ArgStr "All" /\
  (py_int sessions = None \/
   (lower count_from <> "first" /\ lower count_from <> "last")).

(** The keys of the groups the loop of [group_by] runs over, and the groups:
    what [groupby] yields on the sorted table. *)
Definition group_keys (data : DataFrame) (group_column session_id : string) : list Value :=
  unique (filter (fun v => notna v = true)
            (cell group_column <$> sort_rows [group_column; session_id] (rows data))).

Definition sorted_groups (data : DataFrame) (group_column session_id : string)
  : list (Value * DataFrame) :=
  (fun k => (k, {| columns := columns data;
                   rows := filter (fun r => cell group_column r = k)
                             (sort_rows [group_column; session_id] (rows data)) |}))
    <$> group_keys data group_column session_id.

(** The cells of column [c] of the table a call returns. *)
Definition column_of (c : string) (m : result DataFrame) : result (list Value) :=
  (fun d => cell c <$> rows d) <$> m.

(** ** Sample tables *)

Definition default_columns : list string :=
  ["user_id"; "session_id"; "subscription_type"; "user_journey"].

Definition session (user_id session_id subscription_type user_journey : Value) : Row :=
  <["user_id" := user_id]>
    (<["session_id" := session_id]>
       (<["subscription_type" := subscription_type]>
          (<["user_journey" := user_journey]> ∅))).

(** Three sessions of user 1, out of order, and one of user 2. *)
Definition sample_table : DataFrame :=
  {| columns := default_columns;
     rows := [session (VInt 1) (VInt 2) (VStr "Annual") (VStr "B-C");
              session (VInt 2) (VInt 1) (VStr "Monthly") (VStr "X");
              session (VInt 1) (VInt 1) (VStr "Annual") (VStr "A-B");
              session (VInt 1) (VInt 3) (VStr "Monthly") (VStr "D-D")] |}.

(** What the grouper returns on [sample_table] for all sessions. *)
Definition sample_grouped : DataFrame :=
  {| columns := default_columns;
     rows := [session (VInt 1) (VStr "1-2-3") (VStr "Annual-Monthly") (VStr "A-B-B-C-D-D");
              session (VInt 2) (VStr "1") (VStr "Monthly") (VStr "X")] |}.

(** A session whose journey field is missing. *)
Definition sample_missing_journey : DataFrame :=
  {| columns := default_columns;
     rows := [session (VInt 1) (VInt 1) (VStr "Annual") (VStr "A-A-B");
              session (VInt 1) (VInt 2) (VStr "Annual") VNaN] |}.

(** Two sessions, the second without a user id. *)
Definition sample_missing_user : DataFrame :=
  {| columns := default_columns;
     rows := [session (VStr "u1") (VInt 1) (VStr "Annual") (VStr "A-B");
              session VNaN (VInt 2) (VStr "Monthly") (VStr "C")] |}.

(** The table with the four columns and no row. *)
Definition empty_table : DataFrame :=
  {| columns := default_columns; rows := [] |}.

(** ** The script *)

(** A call of [group_by] on a table of the heap: the table it builds
    ([pd.DataFrame(grouped_records)]) is a new object. *)
Definition group_by_heap (h : heap) (data : ref)
    (group_column target_column session_id subscription_type : string)
    (sessions : PyArg) (count_from : string) : result (heap * ref) :=
  match h !! data with
  | Some d =>
      out ← group_by d group_column target_column session_id subscription_type
              sessions count_from;
      Ok (<[fresh (dom h) := out]> h, fresh (dom h))
  | None => Raise Dangling
  end.

(** The statements of the script between reading [df] and writing
    [cleaned_df]: [cleaned_df = remove_page_duplicates(df)],
    [user_id = group_by(cleaned_df)],
    [cleaned_df = remove_page_duplicates(user_id)], every parameter at its
    default. *)
Definition script (h : heap) (df : ref) : result (heap * ref) :=
  '(h, cleaned_df) ← remove_page_duplicates h df "user_journey";
  '(h, user_id) ← group_by_heap h cleaned_df
                     "user_id" "user_journey" "session_id" "subscription_type"
                     (ArgStr "All") "last";
  remove_page_duplicates h user_id "user_journey".

(** The script without its first statement: [group_by(df)], then
    [remove_page_duplicates]. *)
Definition script_without_first_pass (h : heap) (df : ref) : result (heap * ref) :=
  '(h, user_id) ← group_by_heap h df
                     "user_id" "user_journey" "session_id" "subscription_type"
                     (ArgStr "All") "last";
  remove_page_duplicates h user_id "user_journey".

(** ** More vocabulary *)

(** The page tokens of a journey string. *)
Definition tokens (s : string) : list string := str_split hyphen s.

(** No two neighbours of the list are equal. *)
Fixpoint adjacent_free (l : list string) : Prop :=
  match l with
  | x :: l' => match l' with y :: _ => x <> y | [] => True end /\ adjacent_free l'
  | [] => True
  end.

(** The rows of the group of key [k], in the order the loop sees them. *)
Definition group_rows (data : DataFrame) (group_column session_id : string) (k : Value)
  : list Row :=
  filter (fun r => cell group_column r = k)
    (sort_rows [group_column; session_id] (rows data)).

(** A table of which no row has a grouping key. *)
Definition keyless (group_column : string) (data : DataFrame) : Prop :=
  Forall (fun r => cell group_column r = VNaN) (rows data).

(** The tokens kept by the scan of the deduplicator. *)
Definition collapse (l : list string) : list string :=
  match l with
  | [] => []
  | x :: rest => x :: keep_changes x rest
  end.

(** The table [remove_page_duplicates] builds from the table [d]. *)
Definition cleaned (target_column : string) (d : DataFrame) : DataFrame :=
  {| columns := columns d;
     rows := (fun r => <[target_column := remove_duplicates (cell target_column r)]> r)
               <$> rows d |}.

Definition clean_table (target_column : string) (d : DataFrame) : result DataFrame :=
  if decide (target_column ∈ columns d) then Ok (cleaned target_column d)
  else Raise (KeyError target_column).

(** The tables of the script, without the heap. *)
Definition script_table (d : DataFrame) : result DataFrame :=
  d1 ← clean_table "user_journey" d;
  g ← group_by_default d1 (ArgStr "All") "last";
  clean_table "user_journey" g.

(** * Properties *)

(** A decidable statement about given data, settled by evaluation. *)
Ltac by_evaluation := apply (bool_decide_unpack _); vm_compute; exact I.

(** A given argument is in the domain of the model of [int]. *)
Ltac in_int_domain := first [exact I | split; [reflexivity | cbn; lia]].

(** ** Splitting and joining *)

Lemma str_split_nonempty c s : str_split c s <> [].
Proof.
  destruct s as [|a s]; simpl; [done|].
  destruct (Ascii.eqb a c); [done|].
  by destruct (str_split c s).
Qed.

Lemma str_join_cons d x y l :
  str_join d (x :: y :: l) = (x ++ d ++ str_join d (y :: l))%string.
Proof. reflexivity. Qed.

Lemma str_join_push a d t ts :
  str_join d (String a t :: ts) = String a (str_join d (t :: ts)).
Proof. by destruct ts. Qed.

Lemma str_join_split c s : str_join (String c EmptyString) (str_split c s) = s.
Proof.
  induction s as [|a s IH]; simpl; [done|].
  destruct (Ascii.eqb a c) eqn:E.
  - apply Ascii.eqb_eq in E as ->.
    destruct (str_split c s) as [|t ts] eqn:Hs; [by destruct (str_split_nonempty c s)|].
    by rewrite str_join_cons, IH.
  - destruct (str_split c s) as [|t ts] eqn:Hs; [by destruct (str_split_nonempty c s)|].
    by rewrite str_join_push, IH.
Qed.

Lemma str_split_free c s : Forall (fun t => has_char c t = false) (str_split c s).
Proof.
  induction s as [|a s IH]; simpl; [by constructor|].
  destruct (Ascii.eqb a c) eqn:E; [by constructor|].
  destruct (str_split c s) as [|t ts]; [by constructor; [simpl; rewrite E|]|].
  inversion IH; subst. constructor; [|done]. simpl. by rewrite E.
Qed.

Lemma str_split_token c t : has_char c t = false -> str_split c t = [t].
Proof.
  induction t as [|a t IH]; simpl; [done|].
  intros [E H]%orb_false_iff. by rewrite E, IH.
Qed.

Lemma str_split_app c t rest :
  has_char c t = false ->
  str_split c (t ++ String c rest)%string = t :: str_split c rest.
Proof.
  induction t as [|a t IH]; simpl.
  - by rewrite Ascii.eqb_refl.
  - intros [E H]%orb_false_iff. by rewrite E, IH.
Qed.

Lemma str_split_join c l :
  l <> [] -> Forall (fun t => has_char c t = false) l ->
  str_split c (str_join (String c EmptyString) l) = l.
Proof.
  induction l as [|x l IH]; [done|]. intros _ Hl.
  inversion Hl as [|? ? Hx Hl']; subst.
  destruct l as [|y l]; [by apply str_split_token|].
  rewrite str_join_cons. change (String c EmptyString ++ ?r)%string with (String c r).
  rewrite str_split_app by done. by rewrite IH.
Qed.

(** ** The deduplicator on one value *)

Lemma py_last_snoc l x : py_last (l ++ [x]) = x.
Proof. apply List.last_last. Qed.

(** The loop of [remove_duplicates] computes [keep_changes]. *)
Lemma cleaned_pages_keep_changes rest acc x :
  fold_left
    (fun cleaned_pages page =>
       if bool_decide (page <> py_last cleaned_pages)
       then cleaned_pages ++ [page] else cleaned_pages)
    rest (acc ++ [x])
  = acc ++ x :: keep_changes x rest.
Proof.
  revert acc x. induction rest as [|t ts IH]; intros acc x; simpl; [done|].
  rewrite py_last_snoc. destruct (decide (t = x)) as [->|Hne].
  - rewrite bool_decide_eq_false_2 by (by intros []). apply IH.
  - rewrite bool_decide_eq_true_2 by done.
    rewrite IH. by rewrite <- app_assoc.
Qed.

Lemma remove_duplicates_unfold s :
  remove_duplicates (VStr s) = VStr (spec_remove_duplicates s).
Proof.
  unfold remove_duplicates, spec_remove_duplicates.
  destruct (str_split hyphen s) as [|p rest]; [done|].
  cbv zeta. f_equal. f_equal. exact (cleaned_pages_keep_changes rest [] p).
Qed.

Lemma keep_changes_idem x l : keep_changes x (keep_changes x l) = keep_changes x l.
Proof.
  revert x. induction l as [|t ts IH]; intros x; simpl; [done|].
  destruct (decide (t = x)) as [->|Hne]; [apply IH|].
  simpl. rewrite decide_False by done. by rewrite IH.
Qed.

Lemma keep_changes_Forall (P : string -> Prop) x l :
  Forall P l -> Forall P (keep_changes x l).
Proof.
  revert x. induction l as [|t ts IH]; intros x Hl; simpl; [done|].
  inversion Hl; subst. destruct (decide (t = x)); [by apply IH|].
  constructor; [done|by apply IH].
Qed.

Lemma spec_remove_duplicates_idem s :
  spec_remove_duplicates (spec_remove_duplicates s) = spec_remove_duplicates s.
Proof.
  unfold spec_remove_duplicates at 2 3.
  pose proof (str_split_free hyphen s) as Hfree.
  destruct (str_split hyphen s) as [|p rest] eqn:Hs; [by destruct (str_split_nonempty hyphen s)|].
  inversion Hfree as [|? ? Hp Hrest]; subst.
  unfold spec_remove_duplicates, sep. rewrite str_split_join; [|done|].
  - by rewrite keep_changes_idem.
  - constructor; [done|]. by apply keep_changes_Forall.
Qed.

Lemma remove_duplicates_idem v :
  remove_duplicates (remove_duplicates v) = remove_duplicates v.
Proof.
  destruct v as [z|s|]; [done| |done].
  by rewrite !remove_duplicates_unfold, spec_remove_duplicates_idem.
Qed.

Lemma remove_duplicates_not_str v :
  isinstance_str v = false -> remove_duplicates v = v.
Proof. by destruct v. Qed.

(** C3. On a string, [remove_duplicates] returns what the specification
    describes: the string split on the hyphen, the first token kept, every
    later token kept only if it differs from the last kept one, the kept
    tokens joined with hyphens.  A string without a hyphen and the empty
    string come back unchanged, and "A-A-B-B-B-C" becomes "A-B-C". *)
Theorem remove_duplicates_per_value :
  (forall s, remove_duplicates (VStr s) = VStr (spec_remove_duplicates s)) /\
  (forall s, has_char hyphen s = false -> remove_duplicates (VStr s) = VStr s) /\
  remove_duplicates (VStr EmptyString) = VStr EmptyString /\
  remove_duplicates (VStr "A-A-B-B-B-C") = VStr "A-B-C".
Proof.
  split; [exact remove_duplicates_unfold|].
  split; [|split; reflexivity].
  intros s Hs. rewrite remove_duplicates_unfold. f_equal.
  unfold spec_remove_duplicates. by rewrite (str_split_token _ _ Hs).
Qed.

Lemma remove_duplicates_per_value_witness :
  has_char hyphen "X" = false /\ remove_duplicates (VStr "X") = VStr "X".
Proof.
  split; [reflexivity|].
  apply (proj1 (proj2 remove_duplicates_per_value)). reflexivity.
Defined.

(** ** The deduplicator on a table *)

Lemma zip_with_apply {A B C : Type} (g : A -> B -> C) (f : A -> B) (l : list A) :
  zip_with g l (f <$> l) = (fun x => g x (f x)) <$> l.
Proof. induction l as [|x l IH]; [done|]. csimpl. f_equal. exact IH. Qed.

Lemma cell_insert_eq c v (r : Row) : cell c (<[c := v]> r) = v.
Proof. unfold cell. by rewrite lookup_insert_eq. Qed.

Lemma cell_insert_ne c c' v (r : Row) : c <> c' -> cell c' (<[c := v]> r) = cell c' r.
Proof. intros. unfold cell. by rewrite lookup_insert_ne. Qed.

(** What a call does, in one equation: a fresh reference holds the input
    table with the target column rewritten; nothing else changes. *)
Lemma remove_page_duplicates_eq h df c d :
  h !! df = Some d ->
  remove_page_duplicates h df c =
  if decide (c ∈ columns d)
  then Ok (<[fresh (dom h) :=
               {| columns := columns d;
                  rows := (fun r => <[c := remove_duplicates (cell c r)]> r) <$> rows d |}]> h,
           fresh (dom h))
  else Raise (KeyError c).
Proof.
  intros Hd. unfold remove_page_duplicates, df_copy. rewrite Hd. simpl.
  unfold heap_getitem, heap_setitem. rewrite !lookup_insert_eq.
  unfold getitem. destruct (decide (c ∈ columns d)) as [Hc|Hc]; simpl; [|done].
  rewrite insert_insert_eq. unfold setitem, apply.
  rewrite decide_True by done.
  rewrite <- (zip_with_apply (fun (r : Row) v => <[c := v]> r)).
  by rewrite <- list_fmap_compose.
Qed.

Lemma remove_page_duplicates_dangling h df c :
  h !! df = None -> remove_page_duplicates h df c = Raise Dangling.
Proof. intros Hd. unfold remove_page_duplicates, df_copy. by rewrite Hd. Qed.

Lemma fresh_ref_unused (h : heap) : h !! fresh (dom h) = None.
Proof. apply not_elem_of_dom, is_fresh. Qed.

(** C4. The deduplicator is idempotent: on every heap, table and target
    column, the table returned by a second call on the result of a first
    call is the table the first call returned (and a call that fails, fails
    the same way). *)
Theorem remove_page_duplicates_idempotent h df target_column :
  returned (remove_page_duplicates_twice h df target_column)
  = returned (remove_page_duplicates h df target_column).
Proof.
  unfold remove_page_duplicates_twice.
  destruct (h !! df) as [d|] eqn:Hd.
  2: { by rewrite remove_page_duplicates_dangling. }
  rewrite (remove_page_duplicates_eq _ _ _ _ Hd).
  destruct (decide (target_column ∈ columns d)) as [Hc|Hc]; [|done].
  simpl. erewrite remove_page_duplicates_eq by apply lookup_insert_eq.
  simpl. rewrite decide_True by done. simpl. rewrite !lookup_insert_eq.
  do 2 f_equal. rewrite <- list_fmap_compose. apply list_fmap_ext.
  intros i r _. simpl. rewrite cell_insert_eq, remove_duplicates_idem.
  apply insert_insert_eq.
Qed.

(** C8. On a table that has the target column the deduplicator raises no
    error, whatever the cells are; it returns a new table with the same
    columns and as many rows, in which every row keeps the cells of all
    other columns and, where the target cell is not a string, the target
    cell too; the input table, and every other table of the heap, stays as
    it was. *)
Theorem remove_page_duplicates_passthrough h df target_column d :
  h !! df = Some d ->
  target_column ∈ columns d ->
  exists h' df' d',
    remove_page_duplicates h df target_column = Ok (h', df') /\
    h' !! df' = Some d' /\
    columns d' = columns d /\
    length (rows d') = length (rows d) /\
    (forall i r, rows d !! i = Some r ->
       exists r', rows d' !! i = Some r' /\
         (isinstance_str (cell target_column r) = false ->
          cell target_column r' = cell target_column r) /\
         (forall c, c <> target_column -> r' !! c = r !! c)) /\
    df' <> df /\
    h' !! df = Some d /\
    (forall l, l <> df' -> h' !! l = h !! l).
Proof.
  intros Hd Hc. rewrite (remove_page_duplicates_eq _ _ _ _ Hd), decide_True by done.
  assert (fresh (dom h) <> df) as Hfresh.
  { intros E. pose proof (fresh_ref_unused h) as Hf. rewrite E in Hf. congruence. }
  eexists _, _, _. split; [reflexivity|].
  split; [apply lookup_insert_eq|]. simpl.
  split; [done|]. split; [by rewrite length_fmap|].
  split; [|split; [done|split]].
  - intros i r Hr. eexists. split; [by rewrite list_lookup_fmap, Hr|]. split.
    + intros Hs. rewrite cell_insert_eq. by apply remove_duplicates_not_str.
    + intros c Hne. by rewrite lookup_insert_ne.
  - by rewrite lookup_insert_ne.
  - intros l Hl. by rewrite lookup_insert_ne.
Qed.

Lemma remove_page_duplicates_passthrough_witness :
  exists h' df',
    remove_page_duplicates {[ 0%nat := sample_missing_journey ]} 0%nat "user_journey"
      = Ok (h', df') /\
    h' !! 0%nat = Some sample_missing_journey.
Proof.
  destruct (remove_page_duplicates_passthrough
              {[ 0%nat := sample_missing_journey ]} 0%nat "user_journey"
              sample_missing_journey)
    as (h' & df' & d' & Hcall & _ & _ & _ & _ & _ & Hsame & _).
  - reflexivity.
  - by_evaluation.
  - exists h', df'. split; [exact Hcall | exact Hsame].
Defined.

(** ** The sort of the grouper *)

Lemma value_leb_refl a : value_leb a a = true.
Proof.
  destruct a as [z|s|]; simpl; [lia| |done].
  apply Is_true_true. exact (reflexivity (R := String.le) s).
Qed.

Lemma value_leb_trans a b c :
  value_leb a b = true -> value_leb b c = true -> value_leb a c = true.
Proof.
  destruct a as [x|s|], b as [y|t|], c as [z|u|]; simpl; try done; try lia.
  intros H1%Is_true_true H2%Is_true_true. apply Is_true_true.
  exact (transitivity (R := String.le) H1 H2).
Qed.

Lemma value_leb_antisym a b :
  value_leb a b = true -> value_leb b a = true -> a = b.
Proof.
  destruct a as [x|s|], b as [y|t|]; simpl; try done.
  - intros. f_equal. lia.
  - intros H1 H2. f_equal. by apply String.leb_antisym.
Qed.

Lemma value_leb_total a b : value_leb a b = true \/ value_leb b a = true.
Proof.
  destruct a as [x|s|], b as [y|t|]; simpl; auto; [lia|].
  apply String.leb_total.
Qed.

Section sorting.
Variable by_ : list string.

Implicit Types r : Row.
Implicit Types l : list Row.


Lemma rows_leb_total r1 r2 : rows_leb by_ r1 r2 = true \/ rows_leb by_ r2 r1 = true.
Proof.
  induction by_ as [|c by' IH]; simpl; [by left|].
  destruct (decide (cell c r1 = cell c r2)) as [E|N];
    destruct (decide (cell c r2 = cell c r1)) as [E'|N']; try congruence.
  apply value_leb_total.
Qed.

Lemma rows_leb_trans r1 r2 r3 :
  rows_leb by_ r1 r2 = true -> rows_leb by_ r2 r3 = true -> rows_leb by_ r1 r3 = true.
Proof.
  induction by_ as [|c by' IH]; simpl; [done|].
  destruct (decide (cell c r1 = cell c r2)) as [E12|N12];
    destruct (decide (cell c r2 = cell c r3)) as [E23|N23];
    destruct (decide (cell c r1 = cell c r3)) as [E13|N13];
    try congruence; try exact IH.
  - intros H12 H23. exfalso. apply N12.
    apply value_leb_antisym; [done|]. by rewrite E13.
  - apply value_leb_trans.
Qed.

Lemma insert_row_Permutation r l : Permutation (insert_row by_ r l) (r :: l).
Proof.
  induction l as [|r' l IH]; simpl; [done|].
  destruct (rows_leb by_ r r'); [done|].
  rewrite IH. apply perm_swap.
Qed.

Lemma sort_rows_Permutation l : Permutation (sort_rows by_ l) l.
Proof.
  induction l as [|r l IH]; simpl; [done|].
  fold (sort_rows by_ l). by rewrite insert_row_Permutation, IH.
Qed.

Lemma insert_row_sorted r l :
  StronglySorted (fun r1 r2 => rows_leb by_ r1 r2 = true) l ->
  StronglySorted (fun r1 r2 => rows_leb by_ r1 r2 = true) (insert_row by_ r l).
Proof.
  induction l as [|r' l IH]; simpl; intros Hl.
  - by repeat constructor.
  - inversion Hl as [|? ? Hl' Hall]; subst.
    destruct (rows_leb by_ r r') eqn:E.
    + constructor; [done|]. constructor; [done|].
      eapply Forall_impl; [exact Hall|]. intros r2 H2. by eapply rows_leb_trans.
    + constructor; [by apply IH|].
      rewrite (insert_row_Permutation r l). constructor; [|done].
      destruct (rows_leb_total r r'); congruence.
Qed.

Lemma sort_rows_sorted l :
  StronglySorted (fun r1 r2 => rows_leb by_ r1 r2 = true) (sort_rows by_ l).
Proof.
  induction l as [|r l IH]; simpl; [constructor|].
  by apply insert_row_sorted.
Qed.


End sorting.

Lemma rows_leb_key_session gc sc r1 r2 :
  rows_leb [gc; sc] r1 r2 = true <-> key_session_le gc sc r1 r2.
Proof.
  unfold key_session_le, value_lt, value_le. simpl.
  destruct (decide (cell gc r1 = cell gc r2)) as [Ek|Nk].
  - destruct (decide (cell sc r1 = cell sc r2)) as [Es|Ns].
    + split; [|done]. intros _. right. split; [done|].
      rewrite Es. apply value_leb_refl.
    + split; [by right|]. by intros [[_ ?]|[_ ?]].
  - split; [by left|]. by intros [[? _]|[? _]].
Qed.

Lemma sort_values_eq data gc sc :
  gc ∈ columns data -> sc ∈ columns data ->
  sort_values data [gc; sc]
  = Ok {| columns := columns data; rows := sort_rows [gc; sc] (rows data) |}.
Proof.
  intros Hg Hs. unfold sort_values. simpl.
  by rewrite !decide_True by done.
Qed.



(** ** Windows *)

Lemma iloc_head {A : Type} (n : Z) (l : list A) :
  (0 <= n)%Z -> iloc None (Some n) l = take (Z.to_nat n) l.
Proof.
  intros Hn. unfold iloc, slice_bound.
  rewrite (proj2 (Z.ltb_ge n 0)) by done. simpl. rewrite drop_0, Z.sub_0_r.
  destruct (decide (n <= Z.of_nat (length l))%Z).
  - by rewrite Z.min_l by done.
  - rewrite Z.min_r by lia. rewrite Nat2Z.id.
    rewrite !firstn_all2; [done|lia|lia].
Qed.

Lemma iloc_tail {A : Type} (n : Z) (l : list A) :
  (0 < n)%Z -> iloc (Some (- n)%Z) None l = drop (length l - Z.to_nat n) l.
Proof.
  intros Hn. unfold iloc, slice_bound.
  rewrite (proj2 (Z.ltb_lt (- n) 0)) by lia.
  replace (Z.to_nat (Z.max (- n + Z.of_nat (length l)) 0))
    with (length l - Z.to_nat n)%nat by lia.
  apply firstn_all2. rewrite length_drop. lia.
Qed.

Lemma iloc_head_neg {A : Type} (k : Z) (l : list A) :
  (0 < k)%Z -> iloc None (Some (- k)%Z) l = take (length l - Z.to_nat k) l.
Proof.
  intros Hk. unfold iloc, slice_bound.
  rewrite (proj2 (Z.ltb_lt (- k) 0)) by lia. rewrite drop_0, Z.sub_0_r.
  f_equal. lia.
Qed.

Lemma iloc_tail_neg {A : Type} (k : Z) (l : list A) :
  (0 < k)%Z -> iloc (Some k) None l = drop (Z.to_nat k) l.
Proof.
  intros Hk. unfold iloc, slice_bound.
  rewrite (proj2 (Z.ltb_ge k 0)) by lia.
  destruct (decide (k <= Z.of_nat (length l))%Z).
  - rewrite Z.min_l by done. apply firstn_all2. rewrite length_drop. lia.
  - rewrite Z.min_r by lia. rewrite Nat2Z.id.
    rewrite !drop_ge by lia. apply take_nil.
Qed.

Lemma iloc_empty {A : Type} (l : list A) : iloc (Some 0%Z) (Some 0%Z) l = [].
Proof. unfold iloc, slice_bound. simpl. by destruct l. Qed.

Lemma py_int_not_All sessions N : py_int sessions = Some N -> sessions <> ArgStr "All".
Proof. by intros H ->. Qed.

Lemma select_subset_bounded sessions count_from group_df N :
  py_int sessions = Some N ->
  select_subset sessions count_from group_df =
  if decide (lower count_from = "first") then Ok (head N group_df)
  else if decide (lower count_from = "last") then Ok (tail N group_df)
  else Raise (ValueError "count_from must be either 'first' or 'last'.").
Proof.
  intros HN. unfold select_subset.
  rewrite decide_False by (by eapply py_int_not_All). by rewrite HN.
Qed.

Lemma rows_head_nonneg N group_df :
  (0 <= N)%Z -> rows (head N group_df) = take (Z.to_nat N) (rows group_df).
Proof. intros. simpl. by apply iloc_head. Qed.

Lemma rows_tail_nonneg N group_df :
  (0 <= N)%Z ->
  rows (tail N group_df) = drop (length (rows group_df) - Z.to_nat N) (rows group_df).
Proof.
  intros HN. simpl. destruct (Z.eqb_spec N 0) as [->|Hne].
  - rewrite iloc_empty. simpl. rewrite Nat.sub_0_r. by rewrite drop_all.
  - apply iloc_tail. lia.
Qed.

Lemma DataFrame_eq (d1 d2 : DataFrame) :
  columns d1 = columns d2 -> rows d1 = rows d2 -> d1 = d2.
Proof. destruct d1, d2. simpl. by intros -> ->. Qed.

(** C5. Whatever non-negative integer [N] the conversion of [sessions]
    gives, [head] and [tail] keep min(N, group size) rows of the group,
    and the whole group when [N] is at least its size.  For [sessions] an
    integer or an ASCII string of at most 4300 characters that converts to
    [N] (and a recognised [count_from]), the window of a group is selected
    without error, it is what the turn of the loop folds into the
    aggregate, and it has min(N, group size) rows; when [N] is at least the
    group size it is the whole group. *)
Theorem window_bound sessions count_from group_df N :
  (0 <= N)%Z ->
  (length (rows (head N group_df)) = Nat.min (Z.to_nat N) (length (rows group_df)) /\
   length (rows (tail N group_df)) = Nat.min (Z.to_nat N) (length (rows group_df)) /\
   ((length (rows group_df) <= Z.to_nat N)%nat ->
    head N group_df = group_df /\ tail N group_df = group_df)) /\
  (int_domain sessions ->
   py_int sessions = Some N ->
   lower count_from = "first" \/ lower count_from = "last" ->
   exists subset,
     select_subset sessions count_from group_df = Ok subset /\
     (forall group_column target_column session_id subscription_type group_name,
        group_record group_column target_column session_id subscription_type
          sessions count_from group_name group_df
        = fold_subset group_column target_column session_id subscription_type
            group_name subset) /\
     length (rows subset) = Nat.min (Z.to_nat N) (length (rows group_df)) /\
     ((length (rows group_df) <= Z.to_nat N)%nat -> subset = group_df)).
Proof.
  intros Hpos.
  pose proof (rows_head_nonneg N group_df Hpos) as Hhead.
  pose proof (rows_tail_nonneg N group_df Hpos) as Htail.
  split.
  { split; [rewrite Hhead, length_take; lia|].
    split; [rewrite Htail, length_drop; lia|].
    intros Hle. split; (apply DataFrame_eq; [done|]).
    - rewrite Hhead. by apply firstn_all2.
    - rewrite Htail.
      replace (length (rows group_df) - Z.to_nat N)%nat with 0%nat by lia.
      apply drop_0. }
  intros _ HN Hcf.
  assert (exists subset,
    select_subset sessions count_from group_df = Ok subset /\
    columns subset = columns group_df /\
    (rows subset = take (Z.to_nat N) (rows group_df) \/
     rows subset = drop (length (rows group_df) - Z.to_nat N) (rows group_df)))
    as (subset & Hsel & Hcols & Hrows).
  { rewrite (select_subset_bounded _ _ _ _ HN).
    destruct (decide (lower count_from = "first")) as [Hf|Hf].
    - eexists. split; [done|]. split; [done|]. by left.
    - destruct Hcf as [?|Hl]; [done|]. rewrite decide_True by done.
      eexists. split; [done|]. split; [done|]. by right. }
  exists subset. split; [done|]. split; [|split].
  - intros. unfold group_record. by rewrite Hsel.
  - destruct Hrows as [-> | ->]; [rewrite length_take|rewrite length_drop]; lia.
  - intros Hle. apply DataFrame_eq; [done|].
    destruct Hrows as [-> | ->].
    + by apply firstn_all2.
    + replace (length (rows group_df) - Z.to_nat N)%nat with 0%nat by lia.
      apply drop_0.
Qed.

Lemma window_bound_witness :
  exists subset,
    select_subset (ArgStr "2") "first" sample_table = Ok subset /\
    length (rows subset) = 2%nat.
Proof.
  destruct (proj2 (window_bound (ArgStr "2") "first" sample_table 2 ltac:(lia)))
    as (subset & Hsel & _ & Hlen & _).
  - in_int_domain.
  - reflexivity.
  - left. reflexivity.
  - exists subset. split; [exact Hsel | exact Hlen].
Defined.

(** C10. A negative count [-k] is not refused: [head] gives the group
    without its last [k] rows and [tail] the group without its first [k]
    rows.  For [sessions] an integer or an ASCII string of at most 4300
    characters that converts to [-k], the window is selected without error:
    counting from the first it is the group without its last [k] rows,
    counting from the last the group without its first [k] rows, and it is
    empty once [k] reaches the group size. *)
Theorem negative_sessions sessions count_from group_df k :
  (0 < k)%Z ->
  (head (- k) group_df
   = {| columns := columns group_df;
        rows := take (length (rows group_df) - Z.to_nat k) (rows group_df) |} /\
   tail (- k) group_df
   = {| columns := columns group_df;
        rows := drop (Z.to_nat k) (rows group_df) |}) /\
  (int_domain sessions ->
   py_int sessions = Some (- k)%Z ->
   (lower count_from = "first" ->
    select_subset sessions count_from group_df
    = Ok {| columns := columns group_df;
            rows := take (length (rows group_df) - Z.to_nat k) (rows group_df) |}) /\
   (lower count_from = "last" ->
    select_subset sessions count_from group_df
    = Ok {| columns := columns group_df;
            rows := drop (Z.to_nat k) (rows group_df) |}) /\
   (lower count_from = "first" \/ lower count_from = "last" ->
    (length (rows group_df) <= Z.to_nat k)%nat ->
    select_subset sessions count_from group_df
    = Ok {| columns := columns group_df; rows := [] |})).
Proof.
  intros Hpos.
  assert (head (- k) group_df
          = {| columns := columns group_df;
               rows := take (length (rows group_df) - Z.to_nat k) (rows group_df) |})
    as Hhead.
  { unfold head. f_equal. by apply iloc_head_neg. }
  assert (tail (- k) group_df
          = {| columns := columns group_df;
               rows := drop (Z.to_nat k) (rows group_df) |})
    as Htail.
  { unfold tail. f_equal. rewrite (proj2 (Z.eqb_neq (- k) 0)) by lia.
    rewrite Z.opp_involutive. by apply iloc_tail_neg. }
  split; [done|].
  intros _ Hk. rewrite (select_subset_bounded _ _ _ _ Hk).
  split; [|split].
  - intros Hf. by rewrite decide_True, Hhead by done.
  - intros Hl. destruct (decide (lower count_from = "first")) as [Hf|Hf].
    + by rewrite Hf in Hl.
    + by rewrite decide_True, Htail by done.
  - intros Hcf Hle. destruct (decide (lower count_from = "first")) as [Hf|Hf].
    + rewrite Hhead. do 2 f_equal.
      replace (length (rows group_df) - Z.to_nat k)%nat with 0%nat by lia. done.
    + destruct Hcf as [?|Hl]; [done|]. rewrite decide_True, Htail by done.
      do 2 f_equal. by apply drop_ge.
Qed.

Lemma negative_sessions_witness :
  select_subset (ArgStr "-1") "LAST" sample_table
  = Ok {| columns := columns sample_table;
          rows := drop 1 (rows sample_table) |}.
Proof.
  apply (proj1 (proj2 (proj2 (negative_sessions (ArgStr "-1") "LAST" sample_table 1
                                eq_refl)
                         ltac:(in_int_domain) eq_refl))).
  reflexivity.
Defined.

(** ** Distinct elements in order of first appearance *)

Section unique.
Context {A : Type} `{EqDecision A}.
Implicit Types l seen : list A.

Lemma unique_from_filter seen l :
  unique_from seen l = filter (fun y => y ∉ seen) (unique l).
Proof.
  unfold unique. revert seen. induction l as [|x l IH]; intros seen; simpl; [done|].
  rewrite (IH [x]). destruct (decide (x ∈ seen)) as [Hin|Hnin].
  - rewrite filter_cons_False by (by intros []).
    rewrite list_filter_filter_l; [by rewrite <- IH|].
    intros y Hy ->%list_elem_of_singleton. done.
  - rewrite filter_cons_True by done. f_equal.
    rewrite IH, list_filter_filter. apply list_filter_iff.
    intros y. rewrite not_elem_of_cons, list_elem_of_singleton. tauto.
Qed.

Lemma unique_cons x l :
  unique (x :: l) = x :: filter (fun y => y <> x) (unique l).
Proof.
  unfold unique at 1. simpl. f_equal. rewrite unique_from_filter. apply list_filter_iff.
  intros y. by rewrite list_elem_of_singleton.
Qed.

Lemma elem_of_unique x l : x ∈ unique l <-> x ∈ l.
Proof.
  induction l as [|a l IH]; [done|].
  rewrite unique_cons, !elem_of_cons, list_elem_of_filter, IH.
  destruct (decide (x = a)); tauto.
Qed.

Lemma NoDup_unique l : NoDup (unique l).
Proof.
  induction l as [|a l IH]; [constructor|].
  rewrite unique_cons. constructor; [|by apply NoDup_filter].
  rewrite list_elem_of_filter. by intros [? _].
Qed.

Lemma lookup_lt_sublist (us : list A) i j x y :
  us !! i = Some x -> us !! j = Some y -> (i < j)%nat -> [x; y] `sublist_of` us.
Proof.
  revert i j. induction us as [|a us IH]; intros i j Hi Hj Hlt; [done|].
  destruct j as [|j]; [lia|]. destruct i as [|i]; simplify_eq/=.
  - apply sublist_skip, singleton_sublist_l. by eapply list_elem_of_lookup_2.
  - apply sublist_cons. eapply IH; [done..|lia].
Qed.

Lemma first_index_sublist x y l :
  [x; y] `sublist_of` unique l -> (first_index x l < first_index y l)%nat.
Proof.
  induction l as [|a l IH]; [by intros ?%sublist_nil_r|].
  rewrite unique_cons. intros [Hskip|(l' & Heq & Hl')]%sublist_cons_r.
  - assert ([x; y] `sublist_of` unique l) as Hsub.
    { etrans; [exact Hskip|apply sublist_filter]. }
    assert (x <> a /\ y <> a) as [Hx Hy].
    { split.
      - assert (x ∈ filter (fun z => z <> a) (unique l)) as Hin.
        { eapply elem_of_sublist; [|exact Hskip]. set_solver. }
        by apply list_elem_of_filter in Hin as [? _].
      - assert (y ∈ filter (fun z => z <> a) (unique l)) as Hin.
        { eapply elem_of_sublist; [|exact Hskip]. set_solver. }
        by apply list_elem_of_filter in Hin as [? _]. }
    simpl. rewrite !decide_False by done. specialize (IH Hsub). lia.
  - simplify_eq. apply singleton_sublist_l, list_elem_of_filter in Hl' as [Hy _].
    simpl. rewrite decide_True, decide_False by done. lia.
Qed.

(** [unique l] lists the elements of [l], each once, in the order of their
    first occurrences in [l]. *)
Lemma unique_spec l :
  NoDup (unique l) /\
  (forall x, x ∈ unique l <-> x ∈ l) /\
  (forall i j x y,
     unique l !! i = Some x -> unique l !! j = Some y -> (i < j)%nat ->
     (first_index x l < first_index y l)%nat).
Proof.
  split; [apply NoDup_unique|]. split; [intros; apply elem_of_unique|].
  intros i j x y Hi Hj Hlt. eapply first_index_sublist, lookup_lt_sublist; done.
Qed.
End unique.

(** ** The loop of the grouper *)

Lemma for_groups_ext body body' grouped acc :
  (forall group_name group_df, body group_name group_df = body' group_name group_df) ->
  for_groups body grouped acc = for_groups body' grouped acc.
Proof.
  intros Hext. revert acc. induction grouped as [|[n g] gs IH]; intros acc; simpl; [done|].
  rewrite Hext. destruct (body' n g); simpl; [apply IH|done].
Qed.

Lemma for_groups_Ok body grouped acc records :
  for_groups body grouped acc = Ok records <->
  exists rs, records = acc ++ rs /\
             Forall2 (fun g r => body g.1 g.2 = Ok r) grouped rs.
Proof.
  revert acc. induction grouped as [|[n g] gs IH]; intros acc; simpl.
  - split.
    + intros [= <-]. exists []. by rewrite app_nil_r.
    + intros (rs & -> & ->%Forall2_nil_inv_l). by rewrite app_nil_r.
  - destruct (body n g) as [r|e] eqn:Hb; simpl.
    + rewrite IH. split.
      * intros (rs & -> & Hrs). exists (r :: rs).
        rewrite <- app_assoc. split; [done|]. by constructor.
      * intros (rs & -> & Hrs). inversion Hrs as [|? r' ? rs' Hr Hrs']; subst.
        simpl in Hr. rewrite Hb in Hr. simplify_eq.
        exists rs'. by rewrite <- app_assoc.
    + split; [done|]. intros (rs & _ & Hrs).
      inversion Hrs as [|? r' ? rs' Hr Hrs']; subst. simpl in Hr. congruence.
Qed.

Lemma for_groups_Raise body grouped acc e :
  for_groups body grouped acc = Raise e ->
  exists g, g ∈ grouped /\ body g.1 g.2 = Raise e.
Proof.
  revert acc. induction grouped as [|[n g] gs IH]; intros acc; simpl; [done|].
  destruct (body n g) as [r|e'] eqn:Hb; simpl.
  - intros (g' & Hin & Hg')%IH. exists g'. split; [by right|done].
  - intros [= ->]. exists (n, g). split; [by left|done].
Qed.

Lemma as_strs_Raise l e : as_strs l = Raise e -> e = TypeError.
Proof.
  induction l as [|[z|s|] l IH]; simpl; try congruence.
  destruct (as_strs l); simpl; [done|]. intros [= <-]. by apply IH.
Qed.

Lemma as_strs_Ok l : Forall (fun v => isinstance_str v = true) l -> is_Ok (as_strs l).
Proof.
  induction 1 as [|[z|s|] l Hv Hl IH]; simpl; try done.
  by destruct (as_strs l).
Qed.

(** The fold of a window, in one equation. *)
Lemma fold_subset_Ok gc tc sc sub name subset record :
  fold_subset gc tc sc sub name subset = Ok record ->
  exists journeys,
    as_strs (cell tc <$> rows subset) = Ok journeys /\
    record =
      <[tc := VStr (str_join sep journeys)]>
        (<[sub := VStr (str_join sep (unique (astype_str (cell sub <$> rows subset))))]>
           (<[sc := VStr (str_join sep (astype_str (cell sc <$> rows subset)))]>
              (<[gc := name]> ∅))).
Proof.
  unfold fold_subset, getitem, join_values.
  destruct (decide (tc ∈ columns subset)); simpl; [|done].
  destruct (as_strs (cell tc <$> rows subset)) as [js|]; simpl; [|done].
  destruct (decide (sc ∈ columns subset)); simpl; [|done].
  destruct (decide (sub ∈ columns subset)); simpl; [|done].
  intros [= <-]. by exists js.
Qed.

Lemma fold_subset_not_InvalidParameter gc tc sc sub name subset :
  ~ InvalidParameter (fold_subset gc tc sc sub name subset).
Proof.
  unfold fold_subset, getitem, join_values.
  destruct (decide (tc ∈ columns subset)) as [Htc|Htc]; simpl; [|tauto].
  destruct (as_strs (cell tc <$> rows subset)) as [js|err] eqn:Hjs; simpl.
  - destruct (decide (sc ∈ columns subset)); simpl; [|tauto].
    destruct (decide (sub ∈ columns subset)); simpl; tauto.
  - apply as_strs_Raise in Hjs as ->. tauto.
Qed.

Lemma fold_subset_total gc tc sc sub name subset :
  tc ∈ columns subset -> sc ∈ columns subset -> sub ∈ columns subset ->
  Forall (fun r => isinstance_str (cell tc r) = true) (rows subset) ->
  is_Ok (fold_subset gc tc sc sub name subset).
Proof.
  intros Ht Hs Hsub Hstr. unfold fold_subset, getitem, join_values.
  rewrite !decide_True by done. simpl.
  assert (is_Ok (as_strs (cell tc <$> rows subset))) as Hok.
  { apply as_strs_Ok. by apply Forall_fmap. }
  destruct (as_strs (cell tc <$> rows subset)); [done|by destruct Hok].
Qed.

(** C7. The subscription field of an aggregate is the hyphen-joined list
    of the stringified subscription values of the window, each value once,
    in the order of their first occurrences in the window. *)
Theorem subscription_types_unique
    group_column target_column session_id subscription_type group_name subset record :
  fold_subset group_column target_column session_id subscription_type group_name subset
    = Ok record ->
  subscription_type <> target_column ->
  exists us,
    record !! subscription_type = Some (VStr (str_join sep us)) /\
    NoDup us /\
    (forall x, x ∈ us <-> x ∈ astype_str (cell subscription_type <$> rows subset)) /\
    (forall i j x y,
       us !! i = Some x -> us !! j = Some y -> (i < j)%nat ->
       (first_index x (astype_str (cell subscription_type <$> rows subset))
        < first_index y (astype_str (cell subscription_type <$> rows subset)))%nat).
Proof.
  intros (js & _ & ->)%fold_subset_Ok Hne.
  exists (unique (astype_str (cell subscription_type <$> rows subset))).
  split; [|apply unique_spec].
  rewrite lookup_insert_ne by done. apply lookup_insert_eq.
Qed.

Lemma subscription_types_unique_witness :
  exists us,
    (<["user_journey" := VStr "B-C-A-B-D-D"]>
       (<["subscription_type" := VStr "Annual-Monthly"]>
          (<["session_id" := VStr "2-1-3"]>
             (<["user_id" := VInt 1]> ∅))) : Row)
    !! "subscription_type" = Some (VStr (str_join sep us)) /\
    NoDup us.
Proof.
  destruct (subscription_types_unique
              "user_id" "user_journey" "session_id" "subscription_type" (VInt 1)
              {| columns := default_columns;
                 rows := [session (VInt 1) (VInt 2) (VStr "Annual") (VStr "B-C");
                          session (VInt 1) (VInt 1) (VStr "Annual") (VStr "A-B");
                          session (VInt 1) (VInt 3) (VStr "Monthly") (VStr "D-D")] |}
              (<["user_journey" := VStr "B-C-A-B-D-D"]>
                 (<["subscription_type" := VStr "Annual-Monthly"]>
                    (<["session_id" := VStr "2-1-3"]>
                       (<["user_id" := VInt 1]> ∅)))))
    as (us & Hsub & Hnd & _).
  - vm_compute. reflexivity.
  - discriminate.
  - exists us. split; [exact Hsub | exact Hnd].
Defined.

(** ** The grouper on a table *)

Lemma group_by_eq data gc tc sc sub sessions cf :
  gc ∈ columns data -> sc ∈ columns data ->
  group_by data gc tc sc sub sessions cf =
  (records ← for_groups (group_record gc tc sc sub sessions cf)
               (sorted_groups data gc sc) [];
   Ok (pd_DataFrame [gc; sc; sub; tc] records)).
Proof.
  intros Hg Hs. unfold group_by. rewrite sort_values_eq by done. simpl.
  unfold groupby. simpl. by rewrite decide_True by done.
Qed.

Lemma group_by_KeyError data gc tc sc sub sessions cf :
  gc ∉ columns data \/ sc ∉ columns data ->
  exists key, group_by data gc tc sc sub sessions cf = Raise (KeyError key).
Proof.
  intros Hmissing. unfold group_by, sort_values. simpl.
  destruct (decide (gc ∈ columns data)); [|by eexists].
  destruct (decide (sc ∈ columns data)); [|by eexists].
  by destruct Hmissing.
Qed.

Lemma group_record_InvalidParameter gc tc sc sub sessions cf name group_df :
  InvalidParameter (group_record gc tc sc sub sessions cf name group_df) <->
  InvalidParameter (select_subset sessions cf group_df).
Proof.
  unfold group_record.
  destruct (select_subset sessions cf group_df) as [subset|e]; simpl; [|done].
  split; [|done]. apply fold_subset_not_InvalidParameter.
Qed.

(** The window selection raises the condition exactly on the parameters
    documented as invalid, whatever the group. *)
Lemma select_subset_InvalidParameter sessions cf group_df :
  InvalidParameter (select_subset sessions cf group_df) <-> invalid_parameters sessions cf.
Proof.
  unfold select_subset, invalid_parameters.
  destruct (decide (sessions = ArgStr "All")) as [->|Hall]; simpl; [tauto|].
  destruct (py_int sessions) as [N|]; simpl; [|tauto].
  destruct (decide (lower cf = "first")) as [Hf|Hf]; simpl.
  { split; [done|]. intros [_ [?|[? _]]]; done. }
  destruct (decide (lower cf = "last")) as [Hl|Hl]; simpl.
  { split; [done|]. intros [_ [?|[_ ?]]]; done. }
  split; [|done]. intros _. split; [done|]. by right.
Qed.

Lemma group_keys_nonempty data gc sc :
  group_keys data gc sc <> [] <-> exists r, r ∈ rows data /\ cell gc r <> VNaN.
Proof.
  unfold group_keys. split.
  - destruct (unique _) as [|k ks] eqn:Hk; [done|]. intros _.
    assert (k ∈ k :: ks) as Hin by (by left). rewrite <- Hk in Hin.
    apply elem_of_unique, list_elem_of_filter in Hin as [Hna Hin].
    apply list_elem_of_fmap in Hin as (r & -> & Hr).
    exists r. split; [|by destruct (cell gc r)].
    by rewrite <- (sort_rows_Permutation [gc; sc]).
  - intros (r & Hr & Hna) Hnil.
    assert (cell gc r ∈ unique (filter (fun v => notna v = true)
              (cell gc <$> sort_rows [gc; sc] (rows data)))) as Hin.
    { apply elem_of_unique, list_elem_of_filter. split; [by destruct (cell gc r)|].
      apply list_elem_of_fmap. exists r. split; [done|].
      by rewrite (sort_rows_Permutation [gc; sc]). }
    rewrite Hnil in Hin. by apply not_elem_of_nil in Hin.
Qed.

(** When [group_by] raises the [InvalidParameter] condition: the parameters
    are invalid and the loop has a group to run on, that is, some row has a
    key. *)
Lemma group_by_InvalidParameter_iff data gc tc sc sub sessions cf :
  gc ∈ columns data -> sc ∈ columns data ->
  (InvalidParameter (group_by data gc tc sc sub sessions cf) <->
   invalid_parameters sessions cf /\ exists r, r ∈ rows data /\ cell gc r <> VNaN).
Proof.
  intros Hg Hs. rewrite group_by_eq by done.
  rewrite <- (group_keys_nonempty data gc sc). unfold sorted_groups.
  destruct (for_groups _ _ _) as [records|e] eqn:Hloop; simpl.
  - split; [done|]. intros [Hinv Hkeys].
    destruct (group_keys data gc sc) as [|k ks]; [done|]. simpl in Hloop.
    destruct (group_record _ _ _ _ _ _ _ _) as [r|e] eqn:Hrec; [|done].
    assert (InvalidParameter (group_record gc tc sc sub sessions cf k
              {| columns := columns data;
                 rows := filter (fun r => cell gc r = k)
                           (sort_rows [gc; sc] (rows data)) |})) as Hbad.
    { by apply group_record_InvalidParameter, select_subset_InvalidParameter. }
    by rewrite Hrec in Hbad.
  - split.
    + intros Hbad. apply for_groups_Raise in Hloop as ([k g] & Hin & Hrec).
      simpl in Hrec. split.
      * eapply select_subset_InvalidParameter, group_record_InvalidParameter.
        by rewrite Hrec.
      * intros Hnil. rewrite Hnil in Hin. by apply not_elem_of_nil in Hin.
    + intros [Hinv Hkeys].
      destruct (group_keys data gc sc) as [|k ks]; [done|]. simpl in Hloop.
      assert (InvalidParameter (group_record gc tc sc sub sessions cf k
                {| columns := columns data;
                   rows := filter (fun r => cell gc r = k)
                             (sort_rows [gc; sc] (rows data)) |})) as Hbad.
      { by apply group_record_InvalidParameter, select_subset_InvalidParameter. }
      destruct (group_record _ _ _ _ _ _ _ _) as [r|e']; [done|].
      simpl in Hloop. by simplify_eq.
Qed.

Lemma group_by_InvalidParameter_inv data gc tc sc sub sessions cf :
  InvalidParameter (group_by data gc tc sc sub sessions cf) ->
  invalid_parameters sessions cf.
Proof.
  destruct (decide (gc ∈ columns data)) as [Hg|Hg];
    [destruct (decide (sc ∈ columns data)) as [Hs|Hs]|].
  - intros H. by apply group_by_InvalidParameter_iff in H as [? _].
  - destruct (group_by_KeyError data gc tc sc sub sessions cf) as [k ->]; [by right|done].
  - destruct (group_by_KeyError data gc tc sc sub sessions cf) as [k ->]; [by left|done].
Qed.

(** C1 (defect of the code). The parameters are checked inside the loop
    over the groups, so a table without a group is never checked: on the
    table with the four columns and no row, [sessions="bogus"], and
    [sessions="2"] with [count_from="middle"], both invalid, raise nothing
    and the call returns the empty table. *)
Theorem group_by_empty_table_unchecked :
  invalid_parameters (ArgStr "bogus") "last" /\
  group_by_default empty_table (ArgStr "bogus") "last"
    = Ok {| columns := []; rows := [] |} /\
  invalid_parameters (ArgStr "2") "middle" /\
  group_by_default empty_table (ArgStr "2") "middle"
    = Ok {| columns := []; rows := [] |}.
Proof.
  split; [|split; [reflexivity|split; [|reflexivity]]].
  - split; [done|]. by left.
  - split; [done|]. right. by split.
Qed.

Lemma for_groups_total body grouped acc :
  Forall (fun g => is_Ok (body g.1 g.2)) grouped -> is_Ok (for_groups body grouped acc).
Proof.
  intros Hall. revert acc.
  induction Hall as [|[n g] gs Hg Hgs IH]; intros acc; simpl; [done|].
  simpl in Hg. destruct (body n g); [apply IH|done].
Qed.

Lemma select_subset_All cf group_df : select_subset (ArgStr "All") cf group_df = Ok group_df.
Proof. unfold select_subset. by rewrite decide_True. Qed.

(** C9. With [sessions='All'] the grouper does not look at [count_from]:
    for every table and every [count_from] the window of a group is the
    whole group, the call does not raise [InvalidParameter], and its outcome
    is the one of the default [count_from]; on a table that has the four
    columns and only strings in the target column the call returns a
    table. *)
Theorem all_sessions_ignore_count_from
    data group_column target_column session_id subscription_type count_from :
  (forall group_df, select_subset (ArgStr "All") count_from group_df = Ok group_df) /\
  ~ InvalidParameter
      (group_by data group_column target_column session_id subscription_type
         (ArgStr "All") count_from) /\
  group_by data group_column target_column session_id subscription_type
    (ArgStr "All") count_from
  = group_by data group_column target_column session_id subscription_type
      (ArgStr "All") "last" /\
  (Forall (fun c => c ∈ columns data)
     [group_column; target_column; session_id; subscription_type] ->
   Forall (fun r => isinstance_str (cell target_column r) = true) (rows data) ->
   is_Ok (group_by data group_column target_column session_id subscription_type
            (ArgStr "All") count_from)).
Proof.
  split; [intros; apply select_subset_All|]. split; [|split].
  - intros [Hall _]%group_by_InvalidParameter_inv. done.
  - unfold group_by. destruct (sort_values _ _) as [sorted|]; simpl; [|done].
    destruct (groupby _ _) as [grouped|]; simpl; [|done].
    erewrite for_groups_ext; [done|]. intros n g. unfold group_record.
    by rewrite !select_subset_All.
  - intros Hcols Hstr.
    apply Forall_cons in Hcols as [Hg Hcols]. apply Forall_cons in Hcols as [Ht Hcols].
    apply Forall_cons in Hcols as [Hs Hcols]. apply Forall_cons in Hcols as [Hsub _].
    rewrite group_by_eq by done.
    pose proof (for_groups_total
      (group_record group_column target_column session_id subscription_type
         (ArgStr "All") count_from)
      (sorted_groups data group_column session_id) []) as Hloop.
    destruct (for_groups _ _ _); [done|]. apply Hloop.
    unfold sorted_groups. apply Forall_fmap, Forall_forall. intros k _. simpl.
    unfold group_record. rewrite select_subset_All. simpl.
    apply fold_subset_total; [done..|]. simpl.
    apply Forall_forall. intros r [_ Hr]%list_elem_of_filter.
    rewrite (sort_rows_Permutation [group_column; session_id]) in Hr.
    by eapply Forall_forall in Hstr.
Qed.

Lemma all_sessions_ignore_count_from_witness :
  is_Ok (group_by sample_table "user_id" "user_journey" "session_id" "subscription_type"
           (ArgStr "All") "middle").
Proof.
  apply (proj2 (proj2 (proj2
    (all_sessions_ignore_count_from sample_table
       "user_id" "user_journey" "session_id" "subscription_type" "middle")))).
  - by_evaluation.
  - by_evaluation.
Defined.

(** ** Groups and keys *)

Lemma first_index_filter {A : Type} `{EqDecision A}
    (P : A -> Prop) `{forall x, Decision (P x)} (x y : A) (l : list A) :
  P x -> P y ->
  (first_index x (filter P l) < first_index y (filter P l))%nat ->
  (first_index x l < first_index y l)%nat.
Proof.
  intros Hx Hy. induction l as [|a l IH]; simpl; [lia|].
  rewrite filter_cons. destruct (decide (P a)) as [Ha|Ha]; simpl.
  - destruct (decide (x = a)), (decide (y = a)); lia.
  - intros Hlt. rewrite !decide_False by (by intros ->). apply IH in Hlt. lia.
Qed.

Lemma group_record_key gc tc sc sub sessions cf name group_df record :
  group_record gc tc sc sub sessions cf name group_df = Ok record ->
  gc <> sc -> gc <> sub -> gc <> tc ->
  cell gc record = name.
Proof.
  unfold group_record. destruct (select_subset sessions cf group_df); simpl; [|done].
  intros (js & _ & ->)%fold_subset_Ok Hs Hsub Ht.
  rewrite !cell_insert_ne by done. apply cell_insert_eq.
Qed.

(** C6 (amended). On a table on which the grouper succeeds, called with a
    grouping column distinct from the three others, the output has one row
    per distinct key of the input that is not missing: its keys are
    those keys, each once, in the order of their first appearance in the
    sorted table.  Rows whose key is missing belong to no group. *)
Theorem grouping_completeness
    data group_column target_column session_id subscription_type sessions count_from out :
  group_by data group_column target_column session_id subscription_type
    sessions count_from = Ok out ->
  group_column <> session_id ->
  group_column <> subscription_type ->
  group_column <> target_column ->
  let keys := cell group_column <$> rows out in
  let sorted_keys :=
    cell group_column <$> sort_rows [group_column; session_id] (rows data) in
  keys = group_keys data group_column session_id /\
  NoDup keys /\
  (forall k, k ∈ keys <-> k <> VNaN /\ k ∈ (cell group_column <$> rows data)) /\
  (forall i j x y,
     keys !! i = Some x -> keys !! j = Some y -> (i < j)%nat ->
     (first_index x sorted_keys < first_index y sorted_keys)%nat).
Proof.
  intros Hcall Hs Hsub Ht keys sorted_keys.
  assert (keys = group_keys data group_column session_id) as Hkeys.
  { subst keys.
    destruct (decide (group_column ∈ columns data)) as [Hgc|Hgc];
      [destruct (decide (session_id ∈ columns data)) as [Hsc|Hsc]|].
    2: { destruct (group_by_KeyError data group_column target_column session_id
           subscription_type sessions count_from) as [k Hk]; [by right|congruence]. }
    2: { destruct (group_by_KeyError data group_column target_column session_id
           subscription_type sessions count_from) as [k Hk]; [by left|congruence]. }
    rewrite group_by_eq in Hcall by done.
    destruct (for_groups _ _ _) as [records|] eqn:Hloop; simpl in Hcall; [|done].
    injection Hcall as <-. simpl.
    apply for_groups_Ok in Hloop as (rs & -> & Hrs). simpl.
    unfold sorted_groups in Hrs. apply Forall2_fmap_l in Hrs.
    induction Hrs as [|k r ks rs Hr Hrs IH]; [done|]. csimpl. f_equal; [|exact IH].
    simpl in Hr. by eapply group_record_key. }
  split; [done|]. rewrite Hkeys. unfold group_keys. fold sorted_keys.
  split; [apply NoDup_unique|]. split.
  - intros k. rewrite elem_of_unique, list_elem_of_filter.
    subst sorted_keys.
    rewrite (fmap_Permutation _ _ _ (sort_rows_Permutation _ (rows data))).
    destruct k; simpl; intuition congruence.
  - intros i j x y Hi Hj Hlt.
    assert (x ∈ unique (filter (fun v => notna v = true) sorted_keys)) as Hx
      by (by eapply list_elem_of_lookup_2).
    assert (y ∈ unique (filter (fun v => notna v = true) sorted_keys)) as Hy
      by (by eapply list_elem_of_lookup_2).
    apply elem_of_unique, list_elem_of_filter in Hx as [Hx _].
    apply elem_of_unique, list_elem_of_filter in Hy as [Hy _].
    apply (first_index_filter (fun v => notna v = true)); [done..|].
    by eapply unique_spec.
Qed.

Lemma grouping_completeness_witness :
  group_by_default sample_table (ArgStr "All") "last" = Ok sample_grouped /\
  cell "user_id" <$> rows sample_grouped = [VInt 1; VInt 2].
Proof.
  assert (group_by_default sample_table (ArgStr "All") "last" = Ok sample_grouped)
    as Hcall by (vm_compute; reflexivity).
  split; [exact Hcall|].
  destruct (grouping_completeness sample_table
              "user_id" "user_journey" "session_id" "subscription_type"
              (ArgStr "All") "last" sample_grouped Hcall) as [Hkeys _];
    [discriminate..|].
  rewrite Hkeys. vm_compute. reflexivity.
Defined.

(** C6 as stated fails: a row whose key is missing is dropped by the
    grouping, so its key is a key of the input and not one of the output. *)
Lemma grouping_completeness_counterexample :
  exists out,
    group_by_default sample_missing_user (ArgStr "All") "last" = Ok out /\
    cell "user_id" <$> rows out = [VStr "u1"] /\
    cell "user_id" <$> rows sample_missing_user = [VStr "u1"; VNaN] /\
    ~ (forall k, k ∈ (cell "user_id" <$> rows out)
                 <-> k ∈ (cell "user_id" <$> rows sample_missing_user)).
Proof.
  eexists. split; [vm_compute; reflexivity|].
  split; [reflexivity|]. split; [reflexivity|].
  intros H. specialize (H VNaN). destruct H as [_ H].
  assert (VNaN ∈ [VStr "u1"]) as Hin.
  { apply H. vm_compute. right. left. }
  apply list_elem_of_singleton in Hin. discriminate Hin.
Qed.

(** ** The scenarios of the specification *)

Example scenario_single_token : remove_duplicates (VStr "X") = VStr "X".
Proof. reflexivity. Qed.

Example scenario_missing_value : remove_duplicates VNaN = VNaN.
Proof. reflexivity. Qed.

Example scenario_hyphens_only :
  remove_duplicates (VStr "A--A-B-") = VStr "A--A-B-" /\
  remove_duplicates (VStr "---") = VStr EmptyString.
Proof. split; reflexivity. Qed.

(** Two sessions of one user, all sessions: the journeys are joined in
    session order, and a second pass of the deduplicator removes the
    duplicate at the seam. *)
Example scenario_group_then_clean :
  let data :=
    {| columns := default_columns;
       rows := [session (VInt 1) (VInt 2) (VStr "Annual") (VStr "B-C");
                session (VInt 1) (VInt 1) (VStr "Annual") (VStr "A-B")] |} in
  group_by_default data (ArgStr "All") "last"
  = Ok {| columns := default_columns;
          rows := [session (VInt 1) (VStr "1-2") (VStr "Annual") (VStr "A-B-B-C")] |} /\
  remove_duplicates (VStr "A-B-B-C") = VStr "A-B-C".
Proof. split; vm_compute; reflexivity. Qed.

(** Three sessions of user 1: the first two, the last two, and all but the
    first. *)
Example scenario_windows :
  column_of "session_id" (group_by_default sample_table (ArgStr "2") "first")
    = Ok [VStr "1-2"; VStr "1"] /\
  column_of "session_id" (group_by_default sample_table (ArgInt 2) "LAST")
    = Ok [VStr "2-3"; VStr "1"] /\
  column_of "session_id" (group_by_default sample_table (ArgStr "-1") "last")
    = Ok [VStr "2-3"; VStr EmptyString].
Proof. repeat split; vm_compute; reflexivity. Qed.

Example scenario_invalid_parameters :
  group_by_default sample_table (ArgStr "bogus") "last"
    = Raise (ValueError "The sessions parameter must be an integer or 'All'.") /\
  group_by_default sample_table (ArgStr "2") "middle"
    = Raise (ValueError "count_from must be either 'first' or 'last'.") /\
  is_Ok (group_by_default sample_table (ArgStr "All") "middle").
Proof. split; [|split]; vm_compute; [reflexivity..|exact I]. Qed.

(** A journey that is missing goes through the deduplicator and stops the
    grouper: [join] takes strings only. *)
Example scenario_missing_journey :
  group_by_default sample_missing_journey (ArgStr "All") "last" = Raise TypeError.
Proof. vm_compute. reflexivity. Qed.


(** * Further properties of the code *)

(** ** The deduplicator on one value, continued *)

Lemma keep_changes_adjacent_free x l : adjacent_free (x :: keep_changes x l).
Proof.
  revert x. induction l as [|t ts IH]; intros x; simpl; [done|].
  destruct (decide (t = x)) as [->|Hne]; [apply IH|].
  split; [by intros ->|]. apply IH.
Qed.

Lemma keep_changes_fixed x l : adjacent_free (x :: l) -> keep_changes x l = l.
Proof.
  revert x. induction l as [|t ts IH]; intros x; [done|].
  intros [Hne Hrest]. simpl. rewrite decide_False by (by intros ->).
  f_equal. by apply IH.
Qed.

Lemma keep_changes_sublist x l : keep_changes x l `sublist_of` l.
Proof.
  revert x. induction l as [|t ts IH]; intros x; simpl; [done|].
  destruct (decide (t = x)); [apply sublist_cons, IH|apply sublist_skip, IH].
Qed.

Lemma keep_changes_elem_of x l y : y ∈ x :: keep_changes x l <-> y ∈ x :: l.
Proof.
  revert x. induction l as [|t ts IH]; intros x; simpl; [done|].
  destruct (decide (t = x)) as [->|Hne].
  - rewrite IH, !elem_of_cons. tauto.
  - by rewrite (elem_of_cons (t :: keep_changes t ts)), (elem_of_cons (t :: ts)), IH.
Qed.

Lemma keep_changes_last x l :
  List.last (x :: keep_changes x l) EmptyString = List.last (x :: l) EmptyString.
Proof.
  revert x. induction l as [|t ts IH]; intros x; [done|].
  change (List.last (x :: t :: ts) EmptyString) with (List.last (t :: ts) EmptyString).
  simpl keep_changes. destruct (decide (t = x)) as [->|Hne].
  - apply IH.
  - change (List.last (x :: t :: keep_changes t ts) EmptyString)
      with (List.last (t :: keep_changes t ts) EmptyString).
    apply IH.
Qed.

(** The tokens of what [remove_duplicates] returns on a string. *)
Lemma tokens_spec_remove_duplicates s :
  exists p rest,
    tokens s = p :: rest /\
    tokens (spec_remove_duplicates s) = p :: keep_changes p rest.
Proof.
  unfold tokens, spec_remove_duplicates.
  pose proof (str_split_free hyphen s) as Hfree.
  destruct (str_split hyphen s) as [|p rest] eqn:Hs; [by destruct (str_split_nonempty hyphen s)|].
  exists p, rest. split; [done|].
  inversion Hfree; subst. apply str_split_join; [done|].
  constructor; [done|]. by apply keep_changes_Forall.
Qed.

(** X1. Whatever string it is given, [remove_duplicates] returns a string
    whose tokens have no two equal neighbours. *)
Theorem remove_duplicates_no_adjacent_duplicates s :
  exists s', remove_duplicates (VStr s) = VStr s' /\ adjacent_free (tokens s').
Proof.
  exists (spec_remove_duplicates s). split; [apply remove_duplicates_unfold|].
  destruct (tokens_spec_remove_duplicates s) as (p & rest & _ & ->).
  apply keep_changes_adjacent_free.
Qed.

(** X2. [remove_duplicates] returns a string as it is exactly when its
    tokens have no two equal neighbours. *)
Theorem remove_duplicates_fixed_point s :
  remove_duplicates (VStr s) = VStr s <-> adjacent_free (tokens s).
Proof.
  rewrite remove_duplicates_unfold. split.
  - intros [= Hs]. destruct (tokens_spec_remove_duplicates s) as (p & rest & _ & Ht).
    rewrite Hs in Ht. rewrite Ht. apply keep_changes_adjacent_free.
  - intros Hfree. f_equal. unfold spec_remove_duplicates. unfold tokens in Hfree.
    pose proof (str_join_split hyphen s) as Hjoin.
    destruct (str_split hyphen s) as [|p rest]; [done|].
    by rewrite keep_changes_fixed.
Qed.

Lemma string_length_append (a b : string) :
  String.length (a ++ b)%string = (String.length a + String.length b)%nat.
Proof. induction a as [|c a IH]; simpl; [done|]. by rewrite IH. Qed.

Lemma str_join_length_sublist l1 l2 :
  l1 `sublist_of` l2 ->
  (String.length (str_join sep l1) <= String.length (str_join sep l2))%nat.
Proof.
  induction 1 as [|x l1 l2 Hsub IH|x l1 l2 Hsub IH]; [done| |].
  - destruct l1 as [|y l1].
    + destruct l2 as [|z l2]; [done|].
      rewrite str_join_cons, string_length_append. simpl str_join. lia.
    + destruct l2 as [|z l2]; [by apply sublist_nil_r in Hsub|].
      rewrite !str_join_cons, !string_length_append. lia.
  - destruct l2 as [|z l2].
    + apply sublist_nil_r in Hsub as ->. simpl. lia.
    + rewrite str_join_cons, !string_length_append. lia.
Qed.

(** X3. [remove_duplicates] only deletes tokens: the tokens of its result
    are a subsequence of the tokens of the string, with the same first and
    last token and the same set of tokens, and the result is no longer than
    the string. *)
Theorem remove_duplicates_only_deletes s :
  exists s',
    remove_duplicates (VStr s) = VStr s' /\
    tokens s' `sublist_of` tokens s /\
    List.hd EmptyString (tokens s') = List.hd EmptyString (tokens s) /\
    List.last (tokens s') EmptyString = List.last (tokens s) EmptyString /\
    (forall t, t ∈ tokens s' <-> t ∈ tokens s) /\
    (String.length s' <= String.length s)%nat.
Proof.
  exists (spec_remove_duplicates s). split; [apply remove_duplicates_unfold|].
  destruct (tokens_spec_remove_duplicates s) as (p & rest & Hs & Hs').
  assert (tokens (spec_remove_duplicates s) `sublist_of` tokens s) as Hsub.
  { rewrite Hs, Hs'. apply sublist_skip, keep_changes_sublist. }
  split; [done|]. rewrite Hs, Hs'.
  split; [done|]. split; [apply keep_changes_last|].
  split; [intros t; apply keep_changes_elem_of|].
  rewrite <- (str_join_split hyphen s) at 2.
  rewrite <- (str_join_split hyphen (spec_remove_duplicates s)).
  by apply str_join_length_sublist.
Qed.

(** ** The errors of the grouper *)

Lemma group_by_missing_sort_column data gc tc sc sub sessions cf :
  (gc ∉ columns data ->
   group_by data gc tc sc sub sessions cf = Raise (KeyError gc)) /\
  (gc ∈ columns data -> sc ∉ columns data ->
   group_by data gc tc sc sub sessions cf = Raise (KeyError sc)).
Proof.
  unfold group_by, sort_values. simpl. split.
  - intros Hg. by rewrite decide_False by done.
  - intros Hg Hs. by rewrite decide_True, decide_False by done.
Qed.

Lemma group_keys_keyless data gc sc : keyless gc data -> group_keys data gc sc = [].
Proof.
  intros Hk. destruct (group_keys data gc sc) as [|k ks] eqn:Hkeys; [done|].
  assert (group_keys data gc sc <> []) as Hne by (by rewrite Hkeys).
  apply group_keys_nonempty in Hne as (r & Hr & Hkey).
  unfold keyless in Hk. rewrite Forall_forall in Hk. by destruct Hkey; apply Hk.
Qed.

Lemma for_groups_first body k g grouped e :
  body k g = Raise e -> for_groups body ((k, g) :: grouped) [] = Raise e.
Proof. intros Hb. simpl. by rewrite Hb. Qed.

(** X4. On a table that has the two sort columns, and for [sessions] an
    integer or an ASCII string of at most 4300 characters, [group_by] ends
    in a [ValueError] exactly when the parameters are invalid and some row
    has a grouping key: the check runs once per group, so a table without
    any group passes it. *)
Theorem group_by_raises_ValueError
    data group_column target_column session_id subscription_type sessions count_from :
  group_column ∈ columns data ->
  session_id ∈ columns data ->
  int_domain sessions ->
  ((exists msg,
      group_by data group_column target_column session_id subscription_type
        sessions count_from = Raise (ValueError msg))
   <-> invalid_parameters sessions count_from /\
       exists r, r ∈ rows data /\ cell group_column r <> VNaN).
Proof.
  intros Hg Hs _.
  rewrite <- (group_by_InvalidParameter_iff data group_column target_column
                session_id subscription_type sessions count_from Hg Hs).
  destruct (group_by _ _ _ _ _ _ _) as [out|[msg| | |]]; simpl.
  - split; [by intros [msg ?]|done].
  - split; [done|]. intros _. by exists msg.
  - split; [by intros [msg ?]|done].
  - split; [by intros [msg ?]|done].
  - split; [by intros [msg ?]|done].
Qed.

Lemma group_by_raises_ValueError_witness :
  exists msg, group_by_default sample_table (ArgStr "2") "middle" = Raise (ValueError msg).
Proof.
  apply (group_by_raises_ValueError sample_table
           "user_id" "user_journey" "session_id" "subscription_type"
           (ArgStr "2") "middle");
    [by_evaluation | by_evaluation | in_int_domain |].
  split.
  - split; [discriminate|]. right. split; discriminate.
  - exists (session (VInt 1) (VInt 2) (VStr "Annual") (VStr "B-C")).
    split; [by_evaluation|discriminate].
Defined.

(** X5. The check of [sessions] comes before everything else a turn of the
    loop does: when [sessions], an ASCII string of at most 4300 characters,
    is neither 'All' nor convertible and some row has a key, the error
    raised is the one of [sessions], whatever [count_from] is, whether or
    not the target and subscription columns exist, and whatever the
    journeys are. *)
Theorem sessions_checked_first
    data group_column target_column session_id subscription_type sessions count_from :
  group_column ∈ columns data ->
  session_id ∈ columns data ->
  (exists r, r ∈ rows data /\ cell group_column r <> VNaN) ->
  int_domain sessions ->
  sessions <> ArgStr "All" ->
  py_int sessions = None ->
  group_by data group_column target_column session_id subscription_type
    sessions count_from
  = Raise (ValueError "The sessions parameter must be an integer or 'All'.").
Proof.
  intros Hg Hs Hkey _ Hall Hint. rewrite group_by_eq by done.
  apply (group_keys_nonempty data group_column session_id) in Hkey.
  unfold sorted_groups.
  destruct (group_keys data group_column session_id) as [|k ks]; [done|].
  rewrite fmap_cons. erewrite for_groups_first; [done|].
  unfold group_record, select_subset. rewrite decide_False by done.
  by rewrite Hint.
Qed.

Lemma sessions_checked_first_witness :
  group_by sample_missing_journey "user_id" "no_such_column" "session_id"
    "subscription_type" (ArgStr "two") "middle"
  = Raise (ValueError "The sessions parameter must be an integer or 'All'.").
Proof.
  apply sessions_checked_first;
    [by_evaluation | by_evaluation | | in_int_domain | discriminate | reflexivity].
  exists (session (VInt 1) (VInt 1) (VStr "Annual") (VStr "A-A-B")).
  split; [by_evaluation|discriminate].
Defined.

(** X6. The two sort columns are looked up before anything else: without
    the grouping column the call ends in a [KeyError] for it, and with it
    but without the session column in a [KeyError] for that one, whatever
    the rows and the parameters are, invalid ones included. *)
Theorem missing_sort_column
    data group_column target_column session_id subscription_type sessions count_from :
  (group_column ∉ columns data ->
   group_by data group_column target_column session_id subscription_type
     sessions count_from = Raise (KeyError group_column)) /\
  (group_column ∈ columns data -> session_id ∉ columns data ->
   group_by data group_column target_column session_id subscription_type
     sessions count_from = Raise (KeyError session_id)).
Proof.
  unfold group_by, sort_values. simpl. split.
  - intros Hg. by rewrite decide_False by done.
  - intros Hg Hs. by rewrite decide_True, decide_False by done.
Qed.

Lemma missing_sort_column_witness :
  group_by sample_table "user" "user_journey" "session_id" "subscription_type"
    (ArgStr "bogus") "middle" = Raise (KeyError "user") /\
  group_by sample_table "user_id" "user_journey" "session" "subscription_type"
    (ArgStr "bogus") "middle" = Raise (KeyError "session").
Proof.
  split.
  - apply (proj1 (missing_sort_column sample_table "user" "user_journey"
                    "session_id" "subscription_type" (ArgStr "bogus") "middle")).
    intros Hin. revert Hin. by_evaluation.
  - apply (proj2 (missing_sort_column sample_table "user_id" "user_journey"
                    "session" "subscription_type" (ArgStr "bogus") "middle")).
    + by_evaluation.
    + intros Hin. revert Hin. by_evaluation.
Defined.

(** X7. On a table that has the two sort columns and no row with a
    grouping key (the table without rows is one), [group_by] returns the
    table without rows and without columns: the target and subscription
    columns are not looked up and the parameters are not checked. *)
Theorem keyless_table_gives_empty_table
    data group_column target_column session_id subscription_type sessions count_from :
  group_column ∈ columns data ->
  session_id ∈ columns data ->
  keyless group_column data ->
  group_by data group_column target_column session_id subscription_type
    sessions count_from
  = Ok {| columns := []; rows := [] |}.
Proof.
  intros Hg Hs Hk. rewrite group_by_eq by done.
  unfold sorted_groups. by rewrite group_keys_keyless.
Qed.

Lemma keyless_table_gives_empty_table_witness :
  group_by {| columns := ["user_id"; "session_id"];
              rows := [session VNaN (VInt 1) VNaN VNaN] |}
    "user_id" "user_journey" "session_id" "subscription_type" (ArgStr "bogus") "middle"
  = Ok {| columns := []; rows := [] |}.
Proof.
  apply keyless_table_gives_empty_table; by_evaluation.
Defined.

(** ** What the grouper returns *)

Lemma as_strs_Ok_inv l js : as_strs l = Ok js -> l = VStr <$> js.
Proof.
  revert js. induction l as [|[z|s|] l IH]; intros js; simpl; try done.
  - by intros [= <-].
  - destruct (as_strs l) as [ss|]; simpl; [|done].
    intros [= <-]. by rewrite (IH ss).
Qed.

Lemma as_strs_fmap js : as_strs (VStr <$> js) = Ok js.
Proof. induction js as [|j js IH]; [done|]. csimpl. by rewrite IH. Qed.

Lemma NoDup_four {A : Type} (a b c d : A) :
  NoDup [a; b; c; d] -> a <> b /\ a <> c /\ a <> d /\ b <> c /\ b <> d /\ c <> d.
Proof.
  rewrite !NoDup_cons, !not_elem_of_cons. tauto.
Qed.

Lemma filter_other_notin {A : Type} `{EqDecision A} (x : A) (l : list A) :
  x ∉ l -> filter (fun y => y <> x) l = l.
Proof.
  induction l as [|y l IH]; [done|].
  intros [Hxy Hx]%not_elem_of_cons.
  rewrite filter_cons_True by done. by rewrite IH.
Qed.

Lemma unique_NoDup {A : Type} `{EqDecision A} (l : list A) : NoDup l -> unique l = l.
Proof.
  induction 1 as [|x l Hx Hl IH]; [done|].
  by rewrite unique_cons, IH, filter_other_notin.
Qed.

Lemma iloc_sublist {A : Type} (start stop : option Z) (l : list A) :
  iloc start stop l `sublist_of` l.
Proof. unfold iloc. etrans; [apply sublist_take|apply sublist_drop]. Qed.

Lemma select_subset_Ok sessions cf group_df w :
  select_subset sessions cf group_df = Ok w ->
  columns w = columns group_df /\ rows w `sublist_of` rows group_df.
Proof.
  unfold select_subset.
  destruct (decide (sessions = ArgStr "All")); [by intros [= <-]|].
  destruct (py_int sessions) as [N|]; [|done].
  destruct (decide (lower cf = "first")).
  { intros [= <-]. split; [done|]. apply iloc_sublist. }
  destruct (decide (lower cf = "last")); [|done].
  intros [= <-]. split; [done|]. simpl.
  destruct (N =? 0)%Z; apply iloc_sublist.
Qed.

Lemma group_record_Ok gc tc sc sub sessions cf name group_df record :
  group_record gc tc sc sub sessions cf name group_df = Ok record ->
  exists w,
    select_subset sessions cf group_df = Ok w /\
    fold_subset gc tc sc sub name w = Ok record.
Proof.
  unfold group_record.
  destruct (select_subset sessions cf group_df) as [w|]; simpl; [|done].
  intros Hfold. by exists w.
Qed.

Lemma group_by_Ok data gc tc sc sub sessions cf out :
  group_by data gc tc sc sub sessions cf = Ok out ->
  out = pd_DataFrame [gc; sc; sub; tc] (rows out) /\
  Forall2
    (fun k r =>
       group_record gc tc sc sub sessions cf k
         {| columns := columns data; rows := group_rows data gc sc k |} = Ok r)
    (group_keys data gc sc) (rows out).
Proof.
  intros Hcall.
  destruct (decide (gc ∈ columns data)) as [Hg|Hg].
  2: { by rewrite (proj1 (group_by_missing_sort_column data gc tc sc sub sessions cf))
         in Hcall. }
  destruct (decide (sc ∈ columns data)) as [Hs|Hs].
  2: { by rewrite (proj2 (group_by_missing_sort_column data gc tc sc sub sessions cf))
         in Hcall. }
  rewrite group_by_eq in Hcall by done.
  destruct (for_groups _ _ _) as [records|] eqn:Hloop; simpl in Hcall; [|done].
  injection Hcall as <-. split; [done|]. simpl.
  apply for_groups_Ok in Hloop as (rs & -> & Hrs). simpl.
  unfold sorted_groups in Hrs. by apply Forall2_fmap_l in Hrs.
Qed.

(** X8. The rows [group_by] returns, one per group key in the order of the
    keys: the row of key [k] holds [k] in the grouping column and, for the
    window [w] selected in the group of [k], the hyphen-joined session ids
    of [w] (as strings), its distinct subscription values and its journeys,
    each in the order of the rows of [w].  The table has the four columns
    in the order grouping, session, subscription, target, or no column when
    it has no row. *)
Theorem group_by_rows
    data group_column target_column session_id subscription_type sessions count_from out :
  group_by data group_column target_column session_id subscription_type
    sessions count_from = Ok out ->
  NoDup [group_column; session_id; subscription_type; target_column] ->
  Forall2
    (fun k r =>
       exists w journeys,
         select_subset sessions count_from
           {| columns := columns data;
              rows := group_rows data group_column session_id k |} = Ok w /\
         cell target_column <$> rows w = VStr <$> journeys /\
         cell group_column r = k /\
         cell session_id r = VStr (str_join sep (astype_str (cell session_id <$> rows w))) /\
         cell subscription_type r
           = VStr (str_join sep (unique (astype_str (cell subscription_type <$> rows w)))) /\
         cell target_column r = VStr (str_join sep journeys))
    (group_keys data group_column session_id) (rows out) /\
  columns out
  = match rows out with
    | [] => []
    | _ :: _ => [group_column; session_id; subscription_type; target_column]
    end.
Proof.
  intros (Hout & Hrows)%group_by_Ok Hnd.
  pose proof (NoDup_four _ _ _ _ Hnd) as (Hgs & Hgb & Hgt & Hsb & Hst & Hbt).
  split.
  - eapply Forall2_impl; [exact Hrows|]. intros k r Hr. simpl in Hr.
    apply group_record_Ok in Hr as (w & Hsel & Hfold).
    apply fold_subset_Ok in Hfold as (js & Hjs & ->).
    exists w, js. split; [done|]. split; [by apply as_strs_Ok_inv|].
    split; [rewrite !cell_insert_ne by done; apply cell_insert_eq|].
    split; [rewrite !cell_insert_ne by done; apply cell_insert_eq|].
    split; [rewrite !cell_insert_ne by done; apply cell_insert_eq|].
    apply cell_insert_eq.
  - rewrite Hout at 1. simpl. destruct (rows out); [done|]. by apply unique_NoDup.
Qed.

Lemma group_by_rows_witness :
  columns sample_grouped = default_columns.
Proof.
  destruct (group_by_rows sample_table
              "user_id" "user_journey" "session_id" "subscription_type"
              (ArgStr "All") "last" sample_grouped) as [_ Hcols].
  - vm_compute. reflexivity.
  - by_evaluation.
  - exact Hcols.
Defined.

Lemma StronglySorted_sublist {A : Type} (R : A -> A -> Prop) (l1 l2 : list A) :
  l1 `sublist_of` l2 -> StronglySorted R l2 -> StronglySorted R l1.
Proof.
  induction 1 as [|x l1 l2 Hsub IH|x l1 l2 Hsub IH]; intros Hsorted; [done| |].
  - apply StronglySorted_inv in Hsorted as [Hl2 Hx]. constructor; [by apply IH|].
    rewrite Forall_forall in *. intros y Hy. apply Hx. by eapply elem_of_sublist.
  - apply StronglySorted_inv in Hsorted as [Hl2 _]. by apply IH.
Qed.

Lemma StronglySorted_impl_on {A : Type} (P : A -> Prop) (R R' : A -> A -> Prop)
    (l : list A) :
  (forall x y, P x -> P y -> R x y -> R' x y) ->
  Forall P l -> StronglySorted R l -> StronglySorted R' l.
Proof.
  intros Himpl Hall Hsorted.
  induction Hsorted as [|x l Hl IH Hx]; [constructor|].
  apply Forall_cons in Hall as [HPx Hall]. constructor; [by apply IH|].
  rewrite Forall_forall in *. intros y Hy. apply Himpl; auto.
Qed.

Lemma group_rows_elem_of data gc sc k r :
  r ∈ group_rows data gc sc k <-> cell gc r = k /\ r ∈ rows data.
Proof.
  unfold group_rows. rewrite list_elem_of_filter.
  by rewrite (sort_rows_Permutation [gc; sc]).
Qed.

(** X9. A group holds the rows of the table that have its key, all of them,
    in ascending order of session id; the window selected in it is a
    subsequence of the group, so the session ids and journeys of an
    aggregate come in ascending session order. *)
Theorem window_in_session_order
    data group_column session_id sessions count_from k w :
  select_subset sessions count_from
    {| columns := columns data; rows := group_rows data group_column session_id k |}
    = Ok w ->
  group_rows data group_column session_id k
    ≡ₚ filter (fun r => cell group_column r = k) (rows data) /\
  rows w `sublist_of` group_rows data group_column session_id k /\
  StronglySorted (fun r1 r2 => value_le (cell session_id r1) (cell session_id r2))
    (rows w).
Proof.
  intros [_ Hsub]%select_subset_Ok. simpl in Hsub.
  split; [|split; [done|]].
  - unfold group_rows. by rewrite (sort_rows_Permutation [group_column; session_id]).
  - eapply StronglySorted_sublist; [exact Hsub|].
    eapply (StronglySorted_impl_on (fun r => cell group_column r = k)).
    + intros r1 r2 H1 H2 Hle.
      apply rows_leb_key_session in Hle as [[_ Hne]|[_ Hle]]; [|done].
      by rewrite H1, H2 in Hne.
    + apply Forall_forall. by intros r [? _]%list_elem_of_filter.
    + eapply StronglySorted_sublist; [apply sublist_filter|].
      apply sort_rows_sorted.
Qed.

Lemma window_in_session_order_witness :
  exists w,
    select_subset (ArgStr "2") "last"
      {| columns := columns sample_table;
         rows := group_rows sample_table "user_id" "session_id" (VInt 1) |} = Ok w /\
    cell "session_id" <$> rows w = [VInt 2; VInt 3].
Proof.
  eexists. split; [vm_compute; reflexivity|].
  destruct (window_in_session_order sample_table "user_id" "session_id"
              (ArgStr "2") "last" (VInt 1) _ eq_refl) as (_ & _ & _).
  vm_compute. reflexivity.
Defined.

(** ** Tokens of a grouped journey *)

Lemma str_split_append c a b :
  str_split c (a ++ String c b)%string = str_split c a ++ str_split c b.
Proof.
  induction a as [|x a IH]; simpl.
  - by rewrite Ascii.eqb_refl.
  - rewrite IH. destruct (Ascii.eqb x c); [done|].
    destruct (str_split c a) as [|t ts] eqn:Ha; [by destruct (str_split_nonempty c a)|].
    done.
Qed.

Lemma tokens_str_join js :
  js <> [] -> tokens (str_join sep js) = mjoin (tokens <$> js).
Proof.
  unfold tokens. induction js as [|j js IH]; [done|]. intros _.
  destruct js as [|j' js].
  - simpl. by rewrite app_nil_r.
  - rewrite str_join_cons. change (sep ++ ?r)%string with (String hyphen r).
    rewrite str_split_append, IH by done. done.
Qed.

(** X10. Folding a window that is not empty loses no page and adds none:
    the tokens of the grouped journey are the tokens of the journeys of the
    window, one journey after the other. *)
Theorem grouped_journey_tokens
    group_column target_column session_id subscription_type group_name subset record :
  fold_subset group_column target_column session_id subscription_type group_name subset
    = Ok record ->
  rows subset <> [] ->
  exists journeys grouped_journey,
    cell target_column <$> rows subset = VStr <$> journeys /\
    cell target_column record = VStr grouped_journey /\
    tokens grouped_journey = mjoin (tokens <$> journeys).
Proof.
  intros (js & Hjs & ->)%fold_subset_Ok Hrows.
  apply as_strs_Ok_inv in Hjs.
  exists js, (str_join sep js). split; [done|]. split; [apply cell_insert_eq|].
  apply tokens_str_join. intros ->. by destruct (rows subset).
Qed.

Lemma grouped_journey_tokens_witness :
  exists journeys grouped_journey,
    cell "user_journey" <$> rows sample_missing_user = VStr <$> journeys /\
    cell "user_journey"
      (session (VStr "u1") (VStr "1-2") (VStr "Annual-Monthly") (VStr "A-B-C"))
    = VStr grouped_journey /\
    tokens grouped_journey = mjoin (tokens <$> journeys).
Proof.
  apply (grouped_journey_tokens "user_id" "user_journey" "session_id"
           "subscription_type" (VStr "u1") sample_missing_user).
  - vm_compute. reflexivity.
  - discriminate.
Defined.

(** ** When the grouper succeeds *)

Lemma for_groups_Ok_all body grouped acc records :
  for_groups body grouped acc = Ok records ->
  Forall (fun g => is_Ok (body g.1 g.2)) grouped.
Proof.
  intros (rs & _ & Hrs)%for_groups_Ok.
  induction Hrs as [|g r gs rs Hg Hrs IH]; constructor; [|done].
  by rewrite Hg.
Qed.

Lemma fold_subset_outcome gc tc sc sub name subset :
  tc ∈ columns subset -> sc ∈ columns subset -> sub ∈ columns subset ->
  (is_Ok (fold_subset gc tc sc sub name subset) <->
   Forall (fun r => isinstance_str (cell tc r) = true) (rows subset)) /\
  (forall e, fold_subset gc tc sc sub name subset = Raise e -> e = TypeError).
Proof.
  intros Ht Hs Hsub. split; [split|].
  - intros Hok. destruct (fold_subset _ _ _ _ _ _) as [record|] eqn:Hfold; [|done].
    apply fold_subset_Ok in Hfold as (js & Hjs%as_strs_Ok_inv & _).
    assert (Forall (fun v => isinstance_str v = true) (cell tc <$> rows subset)) as Hstr.
    { rewrite Hjs. apply Forall_fmap. by apply Forall_true. }
    by apply Forall_fmap in Hstr.
  - by apply fold_subset_total.
  - unfold fold_subset, getitem, join_values. rewrite !decide_True by done. simpl.
    destruct (as_strs (cell tc <$> rows subset)) as [js|e'] eqn:Hjs; simpl; [done|].
    intros e [= <-]. by eapply as_strs_Raise.
Qed.

Lemma elem_of_group_keys data gc sc k :
  k ∈ group_keys data gc sc <-> k <> VNaN /\ exists r, r ∈ rows data /\ cell gc r = k.
Proof.
  unfold group_keys. rewrite elem_of_unique, list_elem_of_filter, list_elem_of_fmap.
  split.
  - intros [Hna (r & -> & Hr)]. split; [by destruct (cell gc r)|].
    exists r. by rewrite <- (sort_rows_Permutation [gc; sc]).
  - intros [Hna (r & Hr & <-)]. split; [by destruct (cell gc r)|].
    exists r. by rewrite (sort_rows_Permutation [gc; sc]).
Qed.

(** X11. With [sessions='All'], on a table that has the four columns,
    [group_by] returns a table exactly when the journey of every row that
    has a grouping key is a string; otherwise it ends in the [TypeError] of
    [join].  The journey of a row without a key does not matter. *)
Theorem group_by_All_outcome
    data group_column target_column session_id subscription_type count_from :
  Forall (fun c => c ∈ columns data)
    [group_column; target_column; session_id; subscription_type] ->
  (is_Ok (group_by data group_column target_column session_id subscription_type
            (ArgStr "All") count_from)
   <-> forall r, r ∈ rows data -> cell group_column r <> VNaN ->
                 isinstance_str (cell target_column r) = true) /\
  (~ is_Ok (group_by data group_column target_column session_id subscription_type
              (ArgStr "All") count_from) ->
   group_by data group_column target_column session_id subscription_type
     (ArgStr "All") count_from = Raise TypeError).
Proof.
  intros Hcols.
  apply Forall_cons in Hcols as [Hg Hcols]. apply Forall_cons in Hcols as [Ht Hcols].
  apply Forall_cons in Hcols as [Hs Hcols]. apply Forall_cons in Hcols as [Hsub _].
  rewrite group_by_eq by done.
  assert (forall k,
    group_record group_column target_column session_id subscription_type
      (ArgStr "All") count_from k
      {| columns := columns data; rows := group_rows data group_column session_id k |}
    = fold_subset group_column target_column session_id subscription_type k
        {| columns := columns data;
           rows := group_rows data group_column session_id k |}) as Hbody.
  { intros k. unfold group_record. by rewrite select_subset_All. }
  destruct (for_groups _ _ _) as [records|e] eqn:Hloop; simpl.
  - split; [|done]. split; [|done]. intros _ r Hr Hkey.
    apply for_groups_Ok_all in Hloop. unfold sorted_groups in Hloop.
    rewrite Forall_fmap, Forall_forall in Hloop.
    assert (cell group_column r ∈ group_keys data group_column session_id) as Hk.
    { apply elem_of_group_keys. split; [done|]. by exists r. }
    specialize (Hloop _ Hk). simpl in Hloop. fold (group_rows data group_column session_id
      (cell group_column r)) in Hloop. rewrite Hbody in Hloop.
    apply fold_subset_outcome in Hloop; [|done..]. simpl in Hloop.
    rewrite Forall_forall in Hloop. apply Hloop.
    by apply group_rows_elem_of.
  - apply for_groups_Raise in Hloop as ([k g] & Hin & Hrec).
    unfold sorted_groups in Hin. apply list_elem_of_fmap in Hin as (k' & [= -> ->] & Hk).
    simpl in Hrec. fold (group_rows data group_column session_id k') in Hrec.
    rewrite Hbody in Hrec.
    pose proof (fold_subset_outcome group_column target_column session_id
      subscription_type k'
      {| columns := columns data; rows := group_rows data group_column session_id k' |}
      Ht Hs Hsub) as [Hiff Herr].
    split; [split; [done|]|].
    + intros Hall. exfalso.
      assert (is_Ok (fold_subset group_column target_column session_id
                subscription_type k'
                {| columns := columns data;
                   rows := group_rows data group_column session_id k' |})) as Hok.
      { apply Hiff. simpl. apply Forall_forall.
        intros r [Hkey Hr]%group_rows_elem_of. apply Hall; [done|].
        apply elem_of_group_keys in Hk as [Hna _]. by rewrite Hkey. }
      by rewrite Hrec in Hok.
    + intros _. by rewrite (Herr e Hrec).
Qed.

Lemma group_by_All_outcome_witness :
  group_by_default sample_missing_journey (ArgStr "All") "last" = Raise TypeError.
Proof.
  apply (proj2 (group_by_All_outcome sample_missing_journey
                  "user_id" "user_journey" "session_id" "subscription_type" "last"
                  ltac:(by_evaluation))).
  vm_compute. exact (fun H => H).
Defined.

(** ** What the grouper does not depend on *)

Lemma rows_leb_antisym by_ r1 r2 :
  rows_leb by_ r1 r2 = true -> rows_leb by_ r2 r1 = true -> same_keys by_ r1 r2.
Proof.
  unfold same_keys. induction by_ as [|c by' IH]; simpl; [constructor|].
  destruct (decide (cell c r1 = cell c r2)) as [E|N];
    destruct (decide (cell c r2 = cell c r1)) as [E'|N']; try congruence.
  - intros H1 H2. constructor; [done|]. by apply IH.
  - intros H1 H2. destruct N. by apply value_leb_antisym.
Qed.

Lemma NoDup_fmap_eq {A B : Type} (f : A -> B) (l : list A) x y :
  NoDup (f <$> l) -> x ∈ l -> y ∈ l -> f x = f y -> x = y.
Proof.
  induction l as [|a l IH]; [by intros _ ?%not_elem_of_nil|].
  rewrite fmap_cons, NoDup_cons. intros [Ha Hl] Hx Hy Hf.
  apply elem_of_cons in Hx as [->|Hx]; apply elem_of_cons in Hy as [->|Hy];
    [done| | |by apply IH].
  - destruct Ha. rewrite Hf. by apply list_elem_of_fmap_2.
  - destruct Ha. rewrite <- Hf. by apply list_elem_of_fmap_2.
Qed.

Lemma sort_rows_Permutation_eq gc sc l1 l2 :
  l1 ≡ₚ l2 ->
  NoDup ((fun r => (cell gc r, cell sc r)) <$> l1) ->
  sort_rows [gc; sc] l1 = sort_rows [gc; sc] l2.
Proof.
  intros Hperm Hnd.
  apply (StronglySorted_unique_strong (fun r1 r2 => rows_leb [gc; sc] r1 r2 = true));
    [|apply sort_rows_sorted..|by rewrite !sort_rows_Permutation].
  intros r1 r2 H1 H2 H12 H21.
  rewrite sort_rows_Permutation in H1. rewrite sort_rows_Permutation, <- Hperm in H2.
  pose proof (rows_leb_antisym _ _ _ H12 H21) as Hsame.
  unfold same_keys in Hsame.
  apply Forall_cons in Hsame as [Hg Hsame]. apply Forall_cons in Hsame as [Hs _].
  eapply (NoDup_fmap_eq (fun r => (cell gc r, cell sc r))); [done..|].
  simpl. by rewrite Hg, Hs.
Qed.

(** X12. The order of the rows of the input does not matter when no two
    rows have both the same key and the same session id: two tables with
    the same columns and the same rows in different orders give the same
    outcome. *)
Theorem group_by_row_order
    data1 data2 group_column target_column session_id subscription_type
    sessions count_from :
  columns data1 = columns data2 ->
  rows data1 ≡ₚ rows data2 ->
  NoDup ((fun r => (cell group_column r, cell session_id r)) <$> rows data1) ->
  group_by data1 group_column target_column session_id subscription_type
    sessions count_from
  = group_by data2 group_column target_column session_id subscription_type
      sessions count_from.
Proof.
  intros Hcols Hperm Hnd. unfold group_by, sort_values.
  by rewrite Hcols, (sort_rows_Permutation_eq _ _ _ _ Hperm Hnd).
Qed.

Lemma group_by_row_order_witness :
  group_by_default sample_table (ArgStr "All") "last"
  = group_by_default
      {| columns := default_columns; rows := reverse (rows sample_table) |}
      (ArgStr "All") "last".
Proof.
  apply group_by_row_order.
  - reflexivity.
  - symmetry. apply reverse_Permutation.
  - by_evaluation.
Defined.

Lemma for_groups_ext_in body body' grouped acc :
  Forall (fun g => body g.1 g.2 = body' g.1 g.2) grouped ->
  for_groups body grouped acc = for_groups body' grouped acc.
Proof.
  intros Hall. revert acc.
  induction Hall as [|[n g] gs Hg Hgs IH]; intros acc; simpl; [done|].
  simpl in Hg. rewrite Hg. destruct (body' n g); simpl; [apply IH|done].
Qed.

(** Two settings of the parameters that select the same window in every
    group give the same outcome. *)
Lemma group_by_select_ext data gc tc sc sub sessions1 cf1 sessions2 cf2 :
  (forall k, k ∈ group_keys data gc sc ->
     select_subset sessions1 cf1
       {| columns := columns data; rows := group_rows data gc sc k |}
     = select_subset sessions2 cf2
         {| columns := columns data; rows := group_rows data gc sc k |}) ->
  group_by data gc tc sc sub sessions1 cf1 = group_by data gc tc sc sub sessions2 cf2.
Proof.
  intros Hsel.
  destruct (decide (gc ∈ columns data)) as [Hg|Hg].
  2: { by rewrite !(proj1 (group_by_missing_sort_column data gc tc sc sub _ _)). }
  destruct (decide (sc ∈ columns data)) as [Hs|Hs].
  2: { by rewrite !(proj2 (group_by_missing_sort_column data gc tc sc sub _ _)). }
  rewrite !group_by_eq by done.
  erewrite for_groups_ext_in; [done|].
  unfold sorted_groups. apply Forall_fmap, Forall_forall. intros k Hk. simpl.
  unfold group_record. fold (group_rows data gc sc k). by rewrite Hsel.
Qed.

Lemma DataFrame_eta (d : DataFrame) : {| columns := columns d; rows := rows d |} = d.
Proof. by destruct d. Qed.

(** X13. A count that is at least the number of rows of the table, given
    as an integer or as an ASCII string of at most 4300 characters, selects
    every group whole: the outcome is the one of [sessions='All'], counting
    from the first or from the last. *)
Theorem sessions_beyond_table_size
    data group_column target_column session_id subscription_type
    sessions count_from N :
  int_domain sessions ->
  py_int sessions = Some N ->
  (0 <= N)%Z ->
  (length (rows data) <= Z.to_nat N)%nat ->
  lower count_from = "first" \/ lower count_from = "last" ->
  group_by data group_column target_column session_id subscription_type
    sessions count_from
  = group_by data group_column target_column session_id subscription_type
      (ArgStr "All") count_from.
Proof.
  intros _ HN Hpos Hlen Hcf. apply group_by_select_ext. intros k _.
  rewrite select_subset_All, (select_subset_bounded _ _ _ _ HN).
  assert (length (group_rows data group_column session_id k) <= Z.to_nat N)%nat as Hk.
  { etrans; [|exact Hlen]. unfold group_rows.
    etrans; [apply sublist_length, sublist_filter|].
    by rewrite (sort_rows_Permutation [group_column; session_id]). }
  destruct (decide (lower count_from = "first")) as [Hf|Hf].
  - f_equal. apply DataFrame_eq; [done|].
    rewrite rows_head_nonneg by done. simpl. by apply firstn_all2.
  - destruct Hcf as [?|Hl]; [done|]. rewrite decide_True by done.
    f_equal. apply DataFrame_eq; [done|].
    rewrite rows_tail_nonneg by done. simpl.
    replace (length (group_rows data group_column session_id k) - Z.to_nat N)%nat
      with 0%nat by lia.
    done.
Qed.

Lemma sessions_beyond_table_size_witness :
  group_by_default sample_table (ArgInt 4) "FIRST"
  = group_by_default sample_table (ArgStr "All") "FIRST".
Proof.
  apply (sessions_beyond_table_size sample_table
           "user_id" "user_journey" "session_id" "subscription_type"
           (ArgInt 4) "FIRST" 4).
  - in_int_domain.
  - reflexivity.
  - lia.
  - vm_compute. lia.
  - left. reflexivity.
Defined.

Lemma lower_ascii_idem c : lower_ascii (lower_ascii c) = lower_ascii c.
Proof. destruct c as [[] [] [] [] [] [] [] []]; reflexivity. Qed.

Lemma lower_idem s : lower (lower s) = lower s.
Proof. induction s as [|c s IH]; simpl; [done|]. by rewrite lower_ascii_idem, IH. Qed.

(** X14. [count_from] is read without regard to case: a value and its
    lower-case form give the same outcome, on every table and for every
    [sessions]. *)
Theorem count_from_case_insensitive
    data group_column target_column session_id subscription_type sessions count_from :
  group_by data group_column target_column session_id subscription_type
    sessions count_from
  = group_by data group_column target_column session_id subscription_type
      sessions (lower count_from).
Proof.
  apply group_by_select_ext. intros k _. unfold select_subset.
  by rewrite lower_idem.
Qed.

(** ** The script *)

Lemma remove_page_duplicates_cleaned h df c d :
  h !! df = Some d ->
  remove_page_duplicates h df c =
  (d' ← clean_table c d; Ok (<[fresh (dom h) := d']> h, fresh (dom h))).
Proof.
  intros Hd. rewrite (remove_page_duplicates_eq _ _ _ _ Hd). unfold clean_table.
  by destruct (decide (c ∈ columns d)).
Qed.

Lemma returned_insert (h : heap) l d : returned (Ok (<[l := d]> h, l)) = Ok d.
Proof. unfold returned. simpl. by rewrite lookup_insert_eq. Qed.

(** The script on the table [d] of the heap: the tables it builds are those
    of [script_table], each at a fresh reference. *)
Lemma script_eq h df d :
  h !! df = Some d ->
  script h df =
  (d1 ← clean_table "user_journey" d;
   g ← group_by_default d1 (ArgStr "All") "last";
   out ← clean_table "user_journey" g;
   let h1 := <[fresh (dom h) := d1]> h in
   let h2 := <[fresh (dom h1) := g]> h1 in
   Ok (<[fresh (dom h2) := out]> h2, fresh (dom h2))).
Proof.
  intros Hd. unfold script. rewrite (remove_page_duplicates_cleaned _ _ _ _ Hd).
  destruct (clean_table "user_journey" d) as [d1|]; simpl; [|done].
  unfold group_by_heap. rewrite lookup_insert_eq. fold (group_by_default d1 (ArgStr "All") "last").
  destruct (group_by_default d1 (ArgStr "All") "last") as [g|]; simpl; [|done].
  erewrite remove_page_duplicates_cleaned by apply lookup_insert_eq.
  by destruct (clean_table "user_journey" g).
Qed.

Lemma returned_script h df d :
  h !! df = Some d -> returned (script h df) = script_table d.
Proof.
  intros Hd. rewrite (script_eq _ _ _ Hd). unfold script_table.
  destruct (clean_table "user_journey" d) as [d1|]; simpl; [|done].
  destruct (group_by_default d1 (ArgStr "All") "last") as [g|]; simpl; [|done].
  destruct (clean_table "user_journey" g) as [out|]; simpl; [|done].
  apply returned_insert.
Qed.

Lemma cell_cleaned_other c c' r :
  c' <> c -> cell c' (<[c := remove_duplicates (cell c r)]> r) = cell c' r.
Proof. intros. by apply cell_insert_ne. Qed.

Lemma keyless_cleaned gc c d : gc <> c -> keyless gc d -> keyless gc (cleaned c d).
Proof.
  intros Hne Hk. unfold keyless, cleaned in *. simpl.
  apply Forall_fmap. eapply Forall_impl; [exact Hk|].
  intros r Hr. simpl. by rewrite cell_cleaned_other.
Qed.

(** X15. On a table that has the three columns but no row with a user id
    (the table of a file with a header and no data is one), the script does
    not reach its end: the grouper returns a table without columns and the
    second deduplication ends in a [KeyError] for the journey column. *)
Theorem script_on_keyless_table h df d :
  h !! df = Some d ->
  Forall (fun c => c ∈ columns d) ["user_journey"; "user_id"; "session_id"] ->
  keyless "user_id" d ->
  script h df = Raise (KeyError "user_journey").
Proof.
  intros Hd Hcols Hk.
  apply Forall_cons in Hcols as [Hj Hcols]. apply Forall_cons in Hcols as [Hu Hcols].
  apply Forall_cons in Hcols as [Hs _].
  rewrite (script_eq _ _ _ Hd).
  assert (clean_table "user_journey" d = Ok (cleaned "user_journey" d)) as ->.
  { unfold clean_table. by rewrite decide_True. }
  simpl. unfold group_by_default. rewrite group_by_eq by done.
  unfold sorted_groups. rewrite group_keys_keyless by (by apply keyless_cleaned).
  reflexivity.
Qed.

Lemma script_on_keyless_table_witness :
  script {[ 0%nat := empty_table ]} 0%nat = Raise (KeyError "user_journey").
Proof.
  apply (script_on_keyless_table _ _ empty_table).
  - reflexivity.
  - by_evaluation.
  - by_evaluation.
Defined.

(** ** Deduplicating before and after joining *)

Lemma keep_changes_app x l1 l2 :
  keep_changes x (l1 ++ l2)
  = keep_changes x l1 ++ keep_changes (List.last (x :: l1) EmptyString) l2.
Proof.
  revert x. induction l1 as [|t ts IH]; intros x; [done|].
  change (List.last (x :: t :: ts) EmptyString) with (List.last (t :: ts) EmptyString).
  simpl. destruct (decide (t = x)) as [->|Hne].
  - apply IH.
  - by rewrite IH.
Qed.

Lemma keep_changes_collapse y l : keep_changes y (collapse l) = keep_changes y l.
Proof.
  destruct l as [|z r]; [done|]. simpl.
  destruct (decide (z = y)) as [->|Hne]; [apply keep_changes_idem|].
  by rewrite keep_changes_idem.
Qed.

Lemma last_collapse y l :
  List.last (y :: collapse l) EmptyString = List.last (y :: l) EmptyString.
Proof.
  destruct l as [|z r]; [done|].
  change (List.last (y :: z :: r) EmptyString) with (List.last (z :: r) EmptyString).
  change (List.last (y :: collapse (z :: r)) EmptyString)
    with (List.last (z :: keep_changes z r) EmptyString).
  apply keep_changes_last.
Qed.

Lemma keep_changes_mjoin_collapse y (ls : list (list string)) :
  keep_changes y (mjoin (collapse <$> ls)) = keep_changes y (mjoin ls).
Proof.
  revert y. induction ls as [|a ls IH]; intros y; [done|]. csimpl.
  by rewrite !keep_changes_app, keep_changes_collapse, last_collapse, IH.
Qed.

Lemma collapse_mjoin_collapse (ls : list (list string)) :
  collapse (mjoin (collapse <$> ls)) = collapse (mjoin ls).
Proof.
  induction ls as [|a ls IH]; [done|]. csimpl.
  destruct a as [|z r]; [exact IH|]. simpl. f_equal.
  rewrite !keep_changes_app, keep_changes_idem, keep_changes_last.
  by rewrite keep_changes_mjoin_collapse.
Qed.

Lemma spec_remove_duplicates_collapse s :
  spec_remove_duplicates s = str_join sep (collapse (tokens s)) /\
  tokens (spec_remove_duplicates s) = collapse (tokens s).
Proof.
  destruct (tokens_spec_remove_duplicates s) as (p & rest & Hs & Hs').
  rewrite Hs', Hs. split; [|done].
  unfold spec_remove_duplicates. unfold tokens in Hs. by rewrite Hs.
Qed.

Lemma spec_remove_duplicates_join js :
  spec_remove_duplicates (str_join sep (spec_remove_duplicates <$> js))
  = spec_remove_duplicates (str_join sep js).
Proof.
  destruct (decide (js = [])) as [->|Hne]; [done|].
  rewrite (proj1 (spec_remove_duplicates_collapse (str_join sep js))).
  rewrite (proj1 (spec_remove_duplicates_collapse
                    (str_join sep (spec_remove_duplicates <$> js)))).
  f_equal. rewrite !tokens_str_join by (by destruct js).
  rewrite <- list_fmap_compose.
  rewrite (list_fmap_ext (tokens ∘ spec_remove_duplicates) (collapse ∘ tokens) js)
    by (intros i s _; apply spec_remove_duplicates_collapse).
  rewrite list_fmap_compose. apply collapse_mjoin_collapse.
Qed.

(** X16. Deduplicating journeys before they are joined is absorbed by the
    deduplication of the joined journey: joining the deduplicated journeys
    and deduplicating the result gives the same string as joining the
    journeys as they are and deduplicating the result. *)
Theorem remove_duplicates_after_join journeys cleaned_journeys :
  Forall2 (fun j c => remove_duplicates (VStr j) = VStr c) journeys cleaned_journeys ->
  remove_duplicates (VStr (str_join sep cleaned_journeys))
  = remove_duplicates (VStr (str_join sep journeys)).
Proof.
  intros Hclean.
  assert (cleaned_journeys = spec_remove_duplicates <$> journeys) as ->.
  { induction Hclean as [|j c js cs Hj Hjs IH]; [done|]. csimpl.
    rewrite remove_duplicates_unfold in Hj. injection Hj as <-. by rewrite IH. }
  rewrite !remove_duplicates_unfold. f_equal. apply spec_remove_duplicates_join.
Qed.

Lemma remove_duplicates_after_join_witness :
  remove_duplicates (VStr (str_join sep ["A-B"; "B-C"]))
  = remove_duplicates (VStr (str_join sep ["A-A-B"; "B-B-C-C"])).
Proof.
  apply remove_duplicates_after_join.
  repeat constructor.
Defined.

(** ** The grouper on a deduplicated table *)

Section cleaned_rows.
Variables (gc tc sc sub : string).
Hypothesis Hgc : gc <> tc.
Hypothesis Hsc : sc <> tc.
Hypothesis Hsub : sub <> tc.

Let F (r : Row) : Row := <[tc := remove_duplicates (cell tc r)]> r.

Implicit Types r : Row.
Implicit Types l W : list Row.

Lemma rows_leb_cleaned r1 r2 : rows_leb [gc; sc] (F r1) (F r2) = rows_leb [gc; sc] r1 r2.
Proof. unfold F. simpl. by rewrite !cell_insert_ne by done. Qed.

Lemma insert_row_cleaned r l :
  insert_row [gc; sc] (F r) (F <$> l) = F <$> insert_row [gc; sc] r l.
Proof.
  induction l as [|r' l IH]; [done|]. csimpl.
  change (if decide (cell gc (F r) = cell gc (F r')) then _ else _)
    with (rows_leb [gc; sc] (F r) (F r')).
  change (if decide (cell gc r = cell gc r') then _ else _)
    with (rows_leb [gc; sc] r r').
  rewrite rows_leb_cleaned. destruct (rows_leb [gc; sc] r r'); [done|].
  csimpl. by rewrite IH.
Qed.

Lemma sort_rows_cleaned l : sort_rows [gc; sc] (F <$> l) = F <$> sort_rows [gc; sc] l.
Proof.
  induction l as [|r l IH]; [done|]. csimpl.
  fold (sort_rows [gc; sc] (F <$> l)). fold (sort_rows [gc; sc] l).
  by rewrite IH, insert_row_cleaned.
Qed.

Lemma filter_key_cleaned k l :
  filter (fun r => cell gc r = k) (F <$> l) = F <$> filter (fun r => cell gc r = k) l.
Proof.
  induction l as [|r l IH]; [done|]. csimpl. rewrite !filter_cons, IH.
  assert (cell gc (F r) = cell gc r) as E by (unfold F; by rewrite cell_insert_ne).
  destruct (decide (cell gc (F r) = k)) as [H1|H1],
    (decide (cell gc r = k)) as [H2|H2]; try done; congruence.
Qed.

Lemma group_keys_cleaned d : group_keys (cleaned tc d) gc sc = group_keys d gc sc.
Proof.
  unfold group_keys, cleaned. simpl. fold F. rewrite sort_rows_cleaned.
  rewrite <- list_fmap_compose. do 2 f_equal. apply list_fmap_ext.
  intros i r _. simpl. unfold F. by rewrite cell_insert_ne.
Qed.

Lemma group_rows_cleaned d k :
  group_rows (cleaned tc d) gc sc k = F <$> group_rows d gc sc k.
Proof.
  unfold group_rows, cleaned. simpl. fold F.
  by rewrite sort_rows_cleaned, filter_key_cleaned.
Qed.

Lemma iloc_fmap {A B : Type} (f : A -> B) start stop (l : list A) :
  iloc start stop (f <$> l) = f <$> iloc start stop l.
Proof. unfold iloc. by rewrite length_fmap, fmap_take, fmap_drop. Qed.

Lemma select_subset_cleaned sessions cf cols (G : list Row) :
  select_subset sessions cf {| columns := cols; rows := F <$> G |}
  = (fun w => {| columns := columns w; rows := F <$> rows w |})
      <$> select_subset sessions cf {| columns := cols; rows := G |}.
Proof.
  unfold select_subset.
  destruct (decide (sessions = ArgStr "All")); [done|].
  destruct (py_int sessions) as [N|]; [|done].
  destruct (decide (lower cf = "first")).
  { unfold head. simpl. by rewrite iloc_fmap. }
  destruct (decide (lower cf = "last")); [|done].
  unfold tail. simpl. destruct (N =? 0)%Z; by rewrite iloc_fmap.
Qed.

Lemma as_strs_cleaned (vs : list Value) :
  as_strs (remove_duplicates <$> vs)
  = (fun js : list string => spec_remove_duplicates <$> js) <$> as_strs vs.
Proof.
  induction vs as [|[z|s|] vs IH]; [done|done| |done].
  rewrite fmap_cons, remove_duplicates_unfold. simpl. rewrite IH.
  by destruct (as_strs vs).
Qed.

(** Folding a window of deduplicated rows: the same errors, and a record
    that the deduplicator sends where it sends the record of the rows as
    they are. *)
Lemma fold_subset_cleaned name cols W :
  match fold_subset gc tc sc sub name {| columns := cols; rows := W |} with
  | Ok r0 =>
      exists r1,
        fold_subset gc tc sc sub name {| columns := cols; rows := F <$> W |} = Ok r1 /\
        F r1 = F r0
  | Raise e =>
      fold_subset gc tc sc sub name {| columns := cols; rows := F <$> W |} = Raise e
  end.
Proof.
  unfold fold_subset, getitem, join_values. simpl.
  destruct (decide (tc ∈ cols)); simpl; [|done].
  assert (cell tc <$> (F <$> W) = remove_duplicates <$> (cell tc <$> W)) as ->.
  { rewrite <- !list_fmap_compose. apply list_fmap_ext.
    intros i r _. simpl. unfold F. by rewrite cell_insert_eq. }
  assert (cell sc <$> (F <$> W) = cell sc <$> W) as ->.
  { rewrite <- !list_fmap_compose. apply list_fmap_ext.
    intros i r _. simpl. unfold F. by rewrite cell_insert_ne. }
  assert (cell sub <$> (F <$> W) = cell sub <$> W) as ->.
  { rewrite <- !list_fmap_compose. apply list_fmap_ext.
    intros i r _. simpl. unfold F. by rewrite cell_insert_ne. }
  rewrite as_strs_cleaned.
  destruct (as_strs (cell tc <$> W)) as [js|]; simpl; [|done].
  destruct (decide (sc ∈ cols)); simpl; [|done].
  destruct (decide (sub ∈ cols)); simpl; [|done].
  eexists. split; [done|]. unfold F.
  rewrite !cell_insert_eq, !insert_insert_eq, !remove_duplicates_unfold.
  by rewrite spec_remove_duplicates_join.
Qed.

Lemma group_record_cleaned sessions cf name cols (G : list Row) :
  match group_record gc tc sc sub sessions cf name {| columns := cols; rows := G |} with
  | Ok r0 =>
      exists r1,
        group_record gc tc sc sub sessions cf name
          {| columns := cols; rows := F <$> G |} = Ok r1 /\
        F r1 = F r0
  | Raise e =>
      group_record gc tc sc sub sessions cf name
        {| columns := cols; rows := F <$> G |} = Raise e
  end.
Proof.
  unfold group_record. rewrite select_subset_cleaned.
  destruct (select_subset sessions cf {| columns := cols; rows := G |}) as [w|];
    simpl; [|done].
  pose proof (fold_subset_cleaned name (columns w) (rows w)) as Hfold.
  by rewrite DataFrame_eta in Hfold.
Qed.

Lemma for_groups_cleaned sessions cf cols (G : Value -> list Row) ks acc0 acc1 :
  F <$> acc1 = F <$> acc0 ->
  match for_groups (group_record gc tc sc sub sessions cf)
          ((fun k => (k, {| columns := cols; rows := G k |})) <$> ks) acc0 with
  | Ok rs0 =>
      exists rs1,
        for_groups (group_record gc tc sc sub sessions cf)
          ((fun k => (k, {| columns := cols; rows := F <$> G k |})) <$> ks) acc1
        = Ok rs1 /\
        F <$> rs1 = F <$> rs0
  | Raise e =>
      for_groups (group_record gc tc sc sub sessions cf)
        ((fun k => (k, {| columns := cols; rows := F <$> G k |})) <$> ks) acc1
      = Raise e
  end.
Proof.
  revert acc0 acc1. induction ks as [|k ks IH]; intros acc0 acc1 Hacc.
  { simpl. by exists acc1. }
  csimpl. pose proof (group_record_cleaned sessions cf k cols (G k)) as Hrec.
  destruct (group_record gc tc sc sub sessions cf k
              {| columns := cols; rows := G k |}) as [r0|e]; simpl.
  - destruct Hrec as (r1 & -> & Hr). simpl.
    apply IH. by rewrite !fmap_app, Hacc; csimpl; rewrite Hr.
  - by rewrite Hrec.
Qed.

(** The grouper on the deduplicated table and on the table as it is, each
    followed by the deduplicator. *)
Lemma group_by_cleaned d sessions cf :
  (g ← group_by (cleaned tc d) gc tc sc sub sessions cf; clean_table tc g)
  = (g ← group_by d gc tc sc sub sessions cf; clean_table tc g).
Proof.
  destruct (decide (gc ∈ columns d)) as [Hg|Hg].
  2: { by rewrite !(proj1 (group_by_missing_sort_column _ gc tc sc sub _ _)). }
  destruct (decide (sc ∈ columns d)) as [Hs|Hs].
  2: { by rewrite !(proj2 (group_by_missing_sort_column _ gc tc sc sub _ _)). }
  rewrite !group_by_eq by done. unfold sorted_groups.
  rewrite group_keys_cleaned.
  rewrite (list_fmap_ext
    (fun k => (k, {| columns := columns (cleaned tc d);
                     rows := filter (fun r => cell gc r = k)
                               (sort_rows [gc; sc] (rows (cleaned tc d))) |}))
    (fun k => (k, {| columns := columns d; rows := F <$> group_rows d gc sc k |}))
    (group_keys d gc sc)).
  2: { intros i k _. f_equal. apply DataFrame_eq; [done|].
       exact (group_rows_cleaned d k). }
  pose proof (for_groups_cleaned sessions cf (columns d)
                (group_rows d gc sc) (group_keys d gc sc) [] [] eq_refl) as Hloop.
  unfold group_rows in Hloop at 1.
  destruct (for_groups _ _ _) as [rs0|e]; simpl.
  - destruct Hloop as (rs1 & -> & Hrs). simpl.
    unfold clean_table, pd_DataFrame. simpl.
    assert (match rs1 with [] => [] | _ :: _ => unique [gc; sc; sub; tc] end
            = match rs0 with [] => [] | _ :: _ => unique [gc; sc; sub; tc] end) as ->.
    { destruct rs1, rs0; done. }
    destruct (decide (tc ∈ _)); [|done].
    unfold cleaned. simpl. fold F. by rewrite Hrs.
  - by rewrite Hloop.
Qed.
End cleaned_rows.

(** ** The script, from end to end *)

Lemma fresh_ref_other (h : heap) l : is_Some (h !! l) -> fresh (dom h) <> l.
Proof.
  intros [d Hl] E. pose proof (fresh_ref_unused h) as Hf. rewrite E in Hf. congruence.
Qed.

Lemma returned_group_then_clean h df d :
  h !! df = Some d ->
  returned (script_without_first_pass h df)
  = (g ← group_by_default d (ArgStr "All") "last"; clean_table "user_journey" g).
Proof.
  intros Hd. unfold script_without_first_pass, group_by_heap. rewrite Hd.
  fold (group_by_default d (ArgStr "All") "last").
  destruct (group_by_default d (ArgStr "All") "last") as [g|]; simpl; [|done].
  erewrite remove_page_duplicates_cleaned by apply lookup_insert_eq.
  destruct (clean_table "user_journey" g) as [out|]; simpl; [|done].
  apply returned_insert.
Qed.

(** X17. The first statement of the script is absorbed by the last: on a
    table that has the journey column, the script and the script without
    its first deduplication end with the same table, or with the same
    error. *)
Theorem first_pass_absorbed h df d :
  h !! df = Some d ->
  "user_journey" ∈ columns d ->
  returned (script h df) = returned (script_without_first_pass h df).
Proof.
  intros Hd Hj.
  rewrite (returned_script _ _ _ Hd), (returned_group_then_clean _ _ _ Hd).
  unfold script_table.
  assert (clean_table "user_journey" d = Ok (cleaned "user_journey" d)) as ->.
  { unfold clean_table. by rewrite decide_True. }
  simpl. unfold group_by_default. by apply group_by_cleaned.
Qed.

Lemma first_pass_absorbed_witness :
  returned (script {[ 0%nat := sample_table ]} 0%nat)
  = returned (script_without_first_pass {[ 0%nat := sample_table ]} 0%nat).
Proof.
  apply (first_pass_absorbed _ _ sample_table).
  - reflexivity.
  - by_evaluation.
Defined.

Lemma group_records_keys gc tc sc sub sessions cf (G : Value -> DataFrame) ks rs :
  Forall2 (fun k r => group_record gc tc sc sub sessions cf k (G k) = Ok r) ks rs ->
  gc <> sc -> gc <> sub -> gc <> tc ->
  cell gc <$> rs = ks.
Proof.
  intros Hrs Hs Hsub Ht.
  induction Hrs as [|k r ks rs Hr Hrs IH]; [done|]. csimpl. f_equal; [|exact IH].
  by eapply group_record_key.
Qed.

Lemma group_records_journeys gc tc sc sub sessions cf (G : Value -> DataFrame) ks rs :
  Forall2 (fun k r => group_record gc tc sc sub sessions cf k (G k) = Ok r) ks rs ->
  Forall (fun r => exists j, cell tc r = VStr j) rs.
Proof.
  intros Hrs. induction Hrs as [|k r ks rs Hr Hrs IH]; constructor; [|exact IH].
  apply group_record_Ok in Hr as (w & _ & Hfold).
  apply fold_subset_Ok in Hfold as (js & _ & ->).
  eexists. apply cell_insert_eq.
Qed.

Lemma script_heap_kept (h : heap) d1 g out l :
  is_Some (h !! l) ->
  let h1 := <[fresh (dom h) := d1]> h in
  let h2 := <[fresh (dom h1) := g]> h1 in
  (<[fresh (dom h2) := out]> h2) !! l = h !! l.
Proof.
  intros Hl h1 h2.
  assert (h1 !! l = h !! l) as H1.
  { unfold h1. by rewrite lookup_insert_ne by (by apply fresh_ref_other). }
  assert (h2 !! l = h !! l) as H2.
  { unfold h2. rewrite lookup_insert_ne; [done|].
    apply fresh_ref_other. by rewrite H1. }
  rewrite lookup_insert_ne; [done|]. apply fresh_ref_other. by rewrite H2.
Qed.

(** X18. When the script reaches its end, it leaves the table it was given
    and every other table of the heap as they were, and the table it
    returns has the four columns, one row per user id of the input in the
    order of the keys, and in every row a journey that is a string without
    two equal neighbouring tokens. *)
Theorem script_postcondition h df d h' cleaned_df :
  h !! df = Some d ->
  script h df = Ok (h', cleaned_df) ->
  exists out,
    h' !! cleaned_df = Some out /\
    (forall l, is_Some (h !! l) -> h' !! l = h !! l) /\
    columns out = default_columns /\
    cell "user_id" <$> rows out = group_keys d "user_id" "session_id" /\
    rows out <> [] /\
    Forall (fun r => exists s, cell "user_journey" r = VStr s /\ adjacent_free (tokens s))
      (rows out).
Proof.
  intros Hd Hscript. rewrite (script_eq _ _ _ Hd) in Hscript.
  destruct (clean_table "user_journey" d) as [d1|] eqn:Hd1; simpl in Hscript; [|done].
  assert (d1 = cleaned "user_journey" d) as ->.
  { unfold clean_table in Hd1. destruct (decide _); by simplify_eq. }
  destruct (group_by_default (cleaned "user_journey" d) (ArgStr "All") "last")
    as [g|] eqn:Hg; simpl in Hscript; [|done].
  destruct (clean_table "user_journey" g) as [out|] eqn:Hout; simpl in Hscript; [|done].
  injection Hscript as <- <-.
  unfold clean_table in Hout.
  destruct (decide ("user_journey" ∈ columns g)) as [Hjg|]; [|done].
  injection Hout as <-.
  unfold group_by_default in Hg. apply group_by_Ok in Hg as [Hshape Hrows].
  assert (rows g <> []) as Hne.
  { intros Hnil. rewrite Hshape, Hnil in Hjg. by apply not_elem_of_nil in Hjg. }
  rewrite (group_keys_cleaned "user_id" "user_journey" "session_id") in Hrows
    by discriminate.
  exists (cleaned "user_journey" g). split; [apply lookup_insert_eq|].
  split; [intros l Hl; by apply script_heap_kept|].
  split; [|split; [|split]].
  - simpl. rewrite Hshape. simpl. by destruct (rows g).
  - rewrite <- (group_records_keys _ _ _ _ _ _ _ _ _ Hrows) by discriminate.
    simpl. rewrite <- list_fmap_compose. apply list_fmap_ext.
    intros i r _. simpl. by rewrite cell_insert_ne by discriminate.
  - simpl. by intros Hnil%fmap_nil_inv.
  - simpl. apply Forall_fmap.
    eapply Forall_impl; [exact (group_records_journeys _ _ _ _ _ _ _ _ _ Hrows)|].
    intros r [j Hj]. simpl. rewrite cell_insert_eq, Hj, remove_duplicates_unfold.
    eexists. split; [done|].
    destruct (tokens_spec_remove_duplicates j) as (p & rest & _ & ->).
    apply keep_changes_adjacent_free.
Qed.

Lemma script_postcondition_witness :
  exists h' cleaned_df out,
    script {[ 0%nat := sample_table ]} 0%nat = Ok (h', cleaned_df) /\
    h' !! cleaned_df = Some out /\
    columns out = default_columns.
Proof.
  destruct (script {[ 0%nat := sample_table ]} 0%nat) as [[h' l]|] eqn:Hscript;
    [|vm_compute in Hscript; discriminate Hscript].
  assert (({[ 0%nat := sample_table ]} : heap) !! 0%nat = Some sample_table) as Hd
    by reflexivity.
  destruct (script_postcondition _ _ _ _ _ Hd Hscript) as (out & Hout & _ & Hcols & _).
  exists h', l, out. split; [reflexivity|]. split; [exact Hout|exact Hcols].
Defined.

(** ** Windows, row by row *)

(** X19. For [sessions] an integer or an ASCII string of at most 4300
    characters that converts to a count [N] that is not negative, the
    window counted from the first is made of the first [N] rows of the
    group and the window counted from the last of its last [N] rows (the
    whole group when it has fewer), in the order of the group. *)
Theorem window_rows sessions count_from group_df N :
  int_domain sessions ->
  py_int sessions = Some N ->
  (0 <= N)%Z ->
  (lower count_from = "first" ->
   select_subset sessions count_from group_df
   = Ok {| columns := columns group_df;
           rows := take (Z.to_nat N) (rows group_df) |}) /\
  (lower count_from = "last" ->
   select_subset sessions count_from group_df
   = Ok {| columns := columns group_df;
           rows := drop (length (rows group_df) - Z.to_nat N) (rows group_df) |}).
Proof.
  intros _ HN Hpos. rewrite (select_subset_bounded _ _ _ _ HN). split.
  - intros Hf. rewrite decide_True by done. f_equal.
    apply DataFrame_eq; [done|]. by apply rows_head_nonneg.
  - intros Hl. destruct (decide (lower count_from = "first")) as [Hf|Hf].
    + by rewrite Hf in Hl.
    + rewrite decide_True by done. f_equal.
      apply DataFrame_eq; [done|]. by apply rows_tail_nonneg.
Qed.

Lemma window_rows_witness :
  select_subset (ArgStr " 3 ") "Last" sample_table
  = Ok {| columns := columns sample_table; rows := drop 1 (rows sample_table) |}.
Proof.
  apply (proj2 (window_rows (ArgStr " 3 ") "Last" sample_table 3
                  ltac:(in_int_domain) eq_refl ltac:(lia))).
  reflexivity.
Defined.

(** ** The deduplicator on a table, continued *)

(** X20. On a table that does not have the target column the deduplicator
    ends in a [KeyError] for that column, whatever the rows are. *)
Theorem remove_page_duplicates_missing_column h df target_column d :
  h !! df = Some d ->
  target_column ∉ columns d ->
  remove_page_duplicates h df target_column = Raise (KeyError target_column).
Proof.
  intros Hd Hc. rewrite (remove_page_duplicates_eq _ _ _ _ Hd).
  by rewrite decide_False.
Qed.

Lemma remove_page_duplicates_missing_column_witness :
  remove_page_duplicates {[ 0%nat := sample_table ]} 0%nat "journey"
  = Raise (KeyError "journey").
Proof.
  apply (remove_page_duplicates_missing_column _ _ _ sample_table).
  - reflexivity.
  - intros Hin. revert Hin. by_evaluation.
Defined.

(** X21. In the table the deduplicator returns, every string of the target
    column has tokens without two equal neighbours, and the rows are as
    many as in the input. *)
Theorem remove_page_duplicates_postcondition h df target_column d :
  h !! df = Some d ->
  target_column ∈ columns d ->
  exists h' df_clean out,
    remove_page_duplicates h df target_column = Ok (h', df_clean) /\
    h' !! df_clean = Some out /\
    length (rows out) = length (rows d) /\
    Forall (fun r => forall s, cell target_column r = VStr s -> adjacent_free (tokens s))
      (rows out).
Proof.
  intros Hd Hc. rewrite (remove_page_duplicates_eq _ _ _ _ Hd), decide_True by done.
  eexists _, _, _. split; [reflexivity|]. split; [apply lookup_insert_eq|].
  simpl. split; [by rewrite length_fmap|].
  apply Forall_fmap, Forall_forall. intros r _ s. simpl.
  rewrite cell_insert_eq. destruct (cell target_column r) as [z|s0|]; [done| |done].
  rewrite remove_duplicates_unfold. intros [= <-].
  destruct (tokens_spec_remove_duplicates s0) as (p & rest & _ & ->).
  apply keep_changes_adjacent_free.
Qed.

Lemma remove_page_duplicates_postcondition_witness :
  exists h' df_clean out,
    remove_page_duplicates {[ 0%nat := sample_table ]} 0%nat "user_journey"
      = Ok (h', df_clean) /\
    h' !! df_clean = Some out /\
    length (rows out) = 4%nat.
Proof.
  destruct (remove_page_duplicates_postcondition
              {[ 0%nat := sample_table ]} 0%nat "user_journey" sample_table)
    as (h' & l & out & Hcall & Hout & Hlen & _).
  - reflexivity.
  - by_evaluation.
  - exists h', l, out. split; [exact Hcall|]. split; [exact Hout|exact Hlen].
Defined.
